(** * MusePlotting: rolling windows, per-sample band filtering and timed CSV saves

    A shallow embedding of [MusePlotting.py].  The script pulls one EEG sample
    per loop iteration, shifts it into one NumPy array per channel, calls
    [bandpass_filter] on the one-element list [[sample[i]]] for every band and
    channel, shifts the results into one array per (band, channel), hands the
    arrays to Matplotlib lines and appends a CSV row every [save_interval]
    seconds.

    Modelling choices.
    - A Python float is [pyfloat]: an exact rational or [NaN].  Rounding and
      infinities are left out; every statement below is about exact
      arithmetic.
    - NumPy arrays are mutable objects.  They live in [heap], a list indexed by
      allocation order; dictionaries and Matplotlib lines hold addresses.
    - Dictionaries keyed by channel or band name are [gmap string _];
      [BANDS], whose iteration order fixes the CSV columns, is an association
      list.
    - [scipy.signal.butter] is a parameter of the development; [lfilter] is
      written out from SciPy's documented recurrence (direct form II
      transposed, zero initial state when no [zi] is passed).
    - The outside world of one loop iteration (what [pull_sample] returns, the
      two readings of [time.time()], whether the CSV file can be written) is a
      [TickEnv] record; [while True] runs over the list of such records.
    - The CSV file is the list of rows written so far.  Every row ends with a
      line terminator, so [csvfile.tell() == 0] holds exactly for the empty
      list. *)

From Stdlib Require Import QArith Qcanon.
From stdpp Require Import gmap strings list fin_maps numbers.

Open Scope Z_scope.

(** ** Floats *)

Inductive pyfloat : Type :=
| NaN
| Fin (q : Qc).

#[global] Instance pyfloat_eq_dec : EqDecision pyfloat.
Proof. solve_decision. Defined.


Definition fzero : pyfloat := Fin 0%Qc.
Definition fone : pyfloat := Fin 1%Qc.

Definition fadd (x y : pyfloat) : pyfloat :=
  match x, y with
  | Fin p, Fin q => Fin (p + q)%Qc
  | _, _ => NaN
  end.

Definition fsub (x y : pyfloat) : pyfloat :=
  match x, y with
  | Fin p, Fin q => Fin (p - q)%Qc
  | _, _ => NaN
  end.

Definition fmul (x y : pyfloat) : pyfloat :=
  match x, y with
  | Fin p, Fin q => Fin (p * q)%Qc
  | _, _ => NaN
  end.

(** Array division as NumPy does it: no exception; a zero divisor gives a
    non-number. *)
Definition fdiv (x y : pyfloat) : pyfloat :=
  match x, y with
  | Fin p, Fin q => if decide (q = 0%Qc) then NaN else Fin (p / q)%Qc
  | _, _ => NaN
  end.

(** ** NumPy arrays and Python indexing *)

Section Arrays.
Context {A : Type}.

(** [np.full(n, v)] *)
Definition np_full (n : nat) (v : A) : list A := replicate n v.

(** [np.roll(a, shift)] on a one-dimensional array: the element at index
    [i] moves to index [(i + shift) mod n]; the result is a new array. *)
Definition np_roll (a : list A) (shift : Z) : list A :=
  match length a with
  | O => a
  | S _ =>
      let k := Z.to_nat ((- shift) `mod` Z.of_nat (length a)) in
      drop k a ++ take k a
  end.

(** Python's index normalisation: [-n <= i < n], negative indices count
    from the end; anything else is an [IndexError]. *)
Definition py_index (n : nat) (i : Z) : option nat :=
  if decide (0 <= i < Z.of_nat n) then Some (Z.to_nat i)
  else if decide (- Z.of_nat n <= i < 0) then Some (Z.to_nat (Z.of_nat n + i))
  else None.

(** [a[i]] *)
Definition getitem (a : list A) (i : Z) : option A :=
  k ← py_index (length a) i; a !! k.

(** [a[i] = v] *)
Definition setitem (a : list A) (i : Z) (v : A) : option (list A) :=
  k ← py_index (length a) i; Some (<[k := v]> a).

(** Lines 79-80 (and 90-91) at the level of array values:
    [buf = np.roll(buf, -1); buf[-1] = v]. *)
Definition window_push (buf : list A) (v : A) : option (list A) :=
  setitem (np_roll buf (-1)) (-1) v.

(** [k] pushes in a row; [None] as soon as one raises. *)
Fixpoint window_pushes (buf : list A) (vs : list A) : option (list A) :=
  match vs with
  | [] => Some buf
  | v :: vs' => buf' ← window_push buf v; window_pushes buf' vs'
  end.
End Arrays.

(** ** SciPy's [lfilter] *)

(** Pad a coefficient list with zeros up to length [n]. *)
Definition pad_to (n : nat) (c : list pyfloat) : list pyfloat :=
  c ++ replicate (n - length c)%nat fzero.

(** The delay line update [z[i] = z[i+1] + b[i+1]*x - a[i+1]*y]; [zs] is the
    old delay line shifted by one with a trailing zero, [bs] and [as_] are the
    coefficient tails. *)
Fixpoint df2t_delay (zs bs as_ : list pyfloat) (x y : pyfloat) : list pyfloat :=
  match zs, bs, as_ with
  | z :: zs', b :: bs', a :: as' =>
      fsub (fadd z (fmul b x)) (fmul a y) :: df2t_delay zs' bs' as' x y
  | _, _, _ => []
  end.

(** One input sample through the direct form II transposed structure with
    normalised, equally long coefficient lists. *)
Definition df2t_step (b a z : list pyfloat) (x : pyfloat)
  : pyfloat * list pyfloat :=
  let y := fadd (hd fzero z) (fmul (hd fzero b) x) in
  (y, df2t_delay (tl z ++ [fzero]) (tl b) (tl a) x y).

Fixpoint df2t_run (b a z : list pyfloat) (xs : list pyfloat)
  : list pyfloat * list pyfloat :=
  match xs with
  | [] => ([], z)
  | x :: xs' =>
      let '(y, z') := df2t_step b a z x in
      let '(ys, zf) := df2t_run b a z' xs' in
      (y :: ys, zf)
  end.

(** Coefficients divided by [a[0]] and padded to a common length. *)
Definition normalise (b a : list pyfloat) : list pyfloat * list pyfloat :=
  let a0 := hd fzero a in
  let n := (length b `max` length a)%nat in
  (pad_to n (map (fun c => fdiv c a0) b), pad_to n (map (fun c => fdiv c a0) a)).

(** [lfilter(b, a, x, zi=z)]: outputs and final delay line. *)
Definition lfilter_zi (b a : list pyfloat) (xs z : list pyfloat)
  : list pyfloat * list pyfloat :=
  let '(b', a') := normalise b a in df2t_run b' a' z xs.

(** [lfilter(b, a, x)]: the delay line starts at zero on every call.  (SciPy
    refuses an empty or zero-led denominator; here such a denominator gives
    [NaN] outputs.  [butter] returns neither.) *)
Definition lfilter (b a : list pyfloat) (xs : list pyfloat) : list pyfloat :=
  let n := (length b `max` length a)%nat in
  fst (lfilter_zi b a xs (replicate (n - 1)%nat fzero)).

(** ** Program state, exceptions and the statement monad *)

Inductive exn : Type :=
| IndexError | KeyError | ValueError | ZeroDivisionError
| OSError | KeyboardInterrupt | LostError | SystemExit.

#[global] Instance exn_eq_dec : EqDecision exn.
Proof. solve_decision. Defined.

(** A CSV cell: the header holds strings, data rows hold numbers. *)
Inductive cell : Type :=
| Str (s : string)
| Num (x : pyfloat).

#[global] Instance cell_eq_dec : EqDecision cell.
Proof. solve_decision. Defined.

(** What the script prints. *)
Inductive event : Type :=
| EvText (s : string)
| EvSample (sample : list pyfloat)
| EvFilter (lowcut highcut : Qc) (data y : list pyfloat).

Record State : Type := mkState {
  heap : list (list pyfloat);
  raw_buffers : gmap string nat;
  filtered_buffers : gmap string (gmap string nat);
  raw_lines : list nat;
  filtered_lines : gmap string (list nat);
  last_save_time : Qc;
  csvfile : list (list cell);
  stdout : list event
}.

Definition empty_state (csv0 : list (list cell)) : State :=
  mkState [] ∅ ∅ [] ∅ 0%Qc csv0 [].

Definition set_heap (h : list (list pyfloat)) (s : State) : State :=
  mkState h (raw_buffers s) (filtered_buffers s) (raw_lines s)
    (filtered_lines s) (last_save_time s) (csvfile s) (stdout s).
Definition set_raw_buffers (d : gmap string nat) (s : State) : State :=
  mkState (heap s) d (filtered_buffers s) (raw_lines s)
    (filtered_lines s) (last_save_time s) (csvfile s) (stdout s).
Definition set_filtered_buffers (d : gmap string (gmap string nat)) (s : State)
  : State :=
  mkState (heap s) (raw_buffers s) d (raw_lines s)
    (filtered_lines s) (last_save_time s) (csvfile s) (stdout s).
Definition set_raw_lines (l : list nat) (s : State) : State :=
  mkState (heap s) (raw_buffers s) (filtered_buffers s) l
    (filtered_lines s) (last_save_time s) (csvfile s) (stdout s).
Definition set_filtered_lines (d : gmap string (list nat)) (s : State) : State :=
  mkState (heap s) (raw_buffers s) (filtered_buffers s) (raw_lines s)
    d (last_save_time s) (csvfile s) (stdout s).
Definition set_last_save_time (t : Qc) (s : State) : State :=
  mkState (heap s) (raw_buffers s) (filtered_buffers s) (raw_lines s)
    (filtered_lines s) t (csvfile s) (stdout s).
Definition set_csvfile (f : list (list cell)) (s : State) : State :=
  mkState (heap s) (raw_buffers s) (filtered_buffers s) (raw_lines s)
    (filtered_lines s) (last_save_time s) f (stdout s).
Definition set_stdout (o : list event) (s : State) : State :=
  mkState (heap s) (raw_buffers s) (filtered_buffers s) (raw_lines s)
    (filtered_lines s) (last_save_time s) (csvfile s) o.

Inductive result (A : Type) : Type :=
| Ok (a : A)
| Raise (e : exn).
Arguments Ok {A} a.
Arguments Raise {A} e.

#[global] Instance result_eq_dec {A} `{EqDecision A} : EqDecision (result A).
Proof. solve_decision. Defined.

(** A statement: from a state to a value or a raised exception, and the state
    reached at that point. *)
Definition M (A : Type) : Type := State → result A * State.

Definition ret {A} (a : A) : M A := λ s, (Ok a, s).
Definition raise {A} (e : exn) : M A := λ s, (Raise e, s).
Definition bind {A B} (m : M A) (f : A → M B) : M B :=
  λ s, match m s with
       | (Ok a, s') => f a s'
       | (Raise e, s') => (Raise e, s')
       end.

#[global] Instance M_ret : MRet M := @ret.
#[global] Instance M_bind : MBind M := λ A B f m, bind m f.

Definition get_state : M State := λ s, (Ok s, s).
Definition modify (f : State → State) : M unit := λ s, (Ok tt, f s).

(** Lift a lookup that raises [e] when it finds nothing. *)
Definition or_raise {A} (e : exn) (o : option A) : M A :=
  match o with Some a => ret a | None => raise e end.

Fixpoint for_each {A} (l : list A) (body : A → M unit) : M unit :=
  match l with
  | [] => ret tt
  | x :: l' => body x;; for_each l' body
  end.

(** [for x in l: acc.append(f(x))], as list comprehensions evaluate. *)
Fixpoint comprehension {A B} (l : list A) (f : A → M B) : M (list B) :=
  match l with
  | [] => ret []
  | x :: l' => y ← f x; ys ← comprehension l' f; ret (y :: ys)
  end.

(** [try: m except e: handler] *)
Definition try_except (m : M unit) (e : exn) (handler : M unit) : M unit :=
  λ s, match m s with
       | (Raise e', s') => if decide (e' = e) then handler s' else (Raise e', s')
       | r => r
       end.

Definition enumerate {A} (l : list A) : list (Z * A) :=
  imap (λ i x, (Z.of_nat i, x)) l.

Definition print (ev : event) : M unit :=
  modify (λ s, set_stdout (stdout s ++ [ev]) s).

(** Allocate a new array and return its address. *)
Definition alloc (arr : list pyfloat) : M nat :=
  λ s, (Ok (length (heap s)), set_heap (heap s ++ [arr]) s).

(** Read the array at an address.  Addresses come from [alloc] only, so a
    dangling one cannot arise; the model makes it an [IndexError]. *)
Definition deref (a : nat) : M (list pyfloat) :=
  s ← get_state; or_raise IndexError (heap s !! a).

(** [arr[i] = v] on the array object at address [a]: mutation in place. *)
Definition array_setitem (a : nat) (i : Z) (v : pyfloat) : M unit :=
  arr ← deref a;
  arr' ← or_raise IndexError (setitem arr i v);
  modify (λ s, set_heap (<[a := arr']> (heap s)) s).

(** [arr[i]] on the array object at address [a]. *)
Definition array_getitem (a : nat) (i : Z) : M pyfloat :=
  arr ← deref a; or_raise IndexError (getitem arr i).

(** Python float division [x / y]. *)
Definition py_div (x y : Qc) : M Qc :=
  if decide (y = 0%Qc) then raise ZeroDivisionError else ret (x / y)%Qc.

(** ** Configuration and the outside world *)

(** The constants of lines 18-28 and 65.  [BANDS] is a dictionary in the
    script: its names are distinct and it is visited in the order written. *)
Record Config : Type := mkConfig {
  fs : Qc;
  buffer_size : nat;
  channels : list string;
  BANDS : list (string * (Qc * Qc));
  save_interval : Qc
}.

(** Lines 18-28 and 65 as written. *)
Definition muse_config : Config :=
  mkConfig (Qc_of_Z 256) (256 * 5)%nat
    ["Channel 1"; "Channel 2"; "Channel 3"; "Channel 4"]%string
    [("Delta", (Qc_of_Z 1, Qc_of_Z 4)); ("Theta", (Qc_of_Z 4, Qc_of_Z 8));
     ("Alpha", (Qc_of_Z 8, Qc_of_Z 13)); ("Beta", (Qc_of_Z 13, Qc_of_Z 30))]%string
    (Qc_of_Z 20).

(** What one loop iteration gets from outside. *)
Record TickEnv : Type := mkTickEnv {
  pulled : exn + (list pyfloat * pyfloat);
  t_check : Qc;
  sink_ok : bool;
  t_reset : Qc
}.

(** The test on line 98: [time.time() - last_save_time >= save_interval]. *)
Definition due (cfg : Config) (env : TickEnv) (s : State) : Prop :=
  (save_interval cfg ≤ t_check env - last_save_time s)%Qc.

#[global] Instance due_dec cfg env s : Decision (due cfg env s).
Proof. unfold due. apply _. Defined.

(** ** The script *)

Section Script.
(** [butter(order, [low, high], btype='band')]: SciPy's filter design,
    external to the script.  It returns the numerator and denominator
    coefficients or raises. *)
Context (butter : nat → Qc → Qc → exn + (list pyfloat * list pyfloat)).
Context (cfg : Config).

Definition call_butter (order : nat) (low high : Qc)
  : M (list pyfloat * list pyfloat) :=
  match butter order low high with
  | inl e => raise e
  | inr ba => ret ba
  end.

(** Lines 31-38. *)
Definition bandpass_filter (data : list pyfloat) (lowcut highcut fs : Qc)
    (order : nat) : M (list pyfloat) :=
  let nyquist := (Q2Qc (1 # 2) * fs)%Qc in
  low ← py_div lowcut nyquist;
  high ← py_div highcut nyquist;
  '(b, a) ← call_butter order low high;
  let y := lfilter b a data in
  print (EvFilter lowcut highcut data y);;
  ret y.

(** A dictionary comprehension: keys are visited in order, a later
    duplicate key overwrites an earlier one. *)
Fixpoint dict_comprehension {V} (acc : gmap string V) (keys : list string)
    (f : string → M V) : M (gmap string V) :=
  match keys with
  | [] => ret acc
  | k :: ks => v ← f k; dict_comprehension (<[k := v]> acc) ks f
  end.

(** The number of axes made by [plt.subplots(8, 1)]. *)
Definition n_axes : nat := 8.

(** Lines 9-68: everything before the loop.  [stream_found] tells whether
    [resolve_byprop] found a stream, [t0] is the reading of [time.time()]
    on line 66. *)
Definition startup (stream_found : bool) (t0 : Qc) : M unit :=
  (if stream_found then print (EvText "Muse EEG stream found.")
   else print (EvText "No EEG stream found. Ensure Muse is connected and streaming via BlueMuse.");;
        raise SystemExit);;
  raw ← dict_comprehension ∅ (channels cfg)
          (λ _, alloc (np_full (buffer_size cfg) NaN));
  modify (set_raw_buffers raw);;
  filtered ← dict_comprehension ∅ (BANDS cfg).*1
          (λ _, dict_comprehension ∅ (channels cfg)
                  (λ _, alloc (np_full (buffer_size cfg) NaN)));
  modify (set_filtered_buffers filtered);;
  rl ← comprehension (seqZ 0 4) (λ i,
          or_raise IndexError (py_index n_axes i);; alloc []);
  modify (set_raw_lines rl);;
  fl ← dict_comprehension ∅ (BANDS cfg).*1
          (λ _, comprehension (seqZ 0 4) (λ i,
                  or_raise IndexError (py_index n_axes (i + 4));; alloc []));
  modify (set_filtered_lines fl);;
  for_each (seqZ 0 4) (λ i,
    _ ← or_raise IndexError (getitem (channels cfg) i); ret tt);;
  for_each (enumerate (BANDS cfg)) (λ '(i, _),
    for_each (seqZ 0 4) (λ j,
      or_raise IndexError (py_index n_axes (i + 4));;
      _ ← or_raise IndexError (getitem (channels cfg) j); ret tt));;
  modify (set_last_save_time t0);;
  print (EvText "Starting real-time EEG streaming...").

(** Line 79: [raw_buffers[channel] = np.roll(raw_buffers[channel], -1)].
    [np.roll] returns a new array; the dictionary entry is rebound to it. *)
Definition raw_roll (channel : string) : M unit :=
  s ← get_state;
  a ← or_raise KeyError (raw_buffers s !! channel);
  arr ← deref a;
  a' ← alloc (np_roll arr (-1));
  modify (λ s, set_raw_buffers (<[channel := a']> (raw_buffers s)) s).

(** Line 80: [raw_buffers[channel][-1] = sample[i]], in place. *)
Definition raw_assign (sample : list pyfloat) (i : Z) (channel : string)
  : M unit :=
  x ← or_raise IndexError (getitem sample i);
  s ← get_state;
  a ← or_raise KeyError (raw_buffers s !! channel);
  array_setitem a (-1) x.

(** Lines 83-84: [raw_lines[i].set_data(np.arange(buffer_size),
    raw_buffers[channel])] and [axes[i].set_xlim(0, buffer_size)].  The
    line keeps a reference to the array it is given. *)
Definition raw_publish (i : Z) (channel : string) : M unit :=
  s ← get_state;
  k ← or_raise IndexError (py_index (length (raw_lines s)) i);
  a ← or_raise KeyError (raw_buffers s !! channel);
  modify (λ s, set_raw_lines (<[k := a]> (raw_lines s)) s);;
  or_raise IndexError (py_index n_axes i);;
  ret tt.

(** Lines 79-84 for one channel. *)
Definition update_raw (sample : list pyfloat) (i : Z) (channel : string)
  : M unit :=
  raw_roll channel;; raw_assign sample i channel;; raw_publish i channel.

(** The call on line 89: [bandpass_filter([x], low, high, fs)[0]]. *)
Definition filter_one (x : pyfloat) (low high : Qc) : M pyfloat :=
  y ← bandpass_filter [x] low high (fs cfg) 4;
  or_raise IndexError (getitem y 0).

(** Line 89 over the successive samples of one channel: what the loop
    computes for a stream fed one sample per iteration. *)
Definition filter_stream (xs : list pyfloat) (low high : Qc)
  : M (list pyfloat) :=
  comprehension xs (λ x, filter_one x low high).

(** Line 90: [filtered_buffers[band][channel] =
    np.roll(filtered_buffers[band][channel], -1)]. *)
Definition filt_roll (band channel : string) : M unit :=
  s ← get_state;
  d ← or_raise KeyError (filtered_buffers s !! band);
  a ← or_raise KeyError (d !! channel);
  arr ← deref a;
  a' ← alloc (np_roll arr (-1));
  s ← get_state;
  d ← or_raise KeyError (filtered_buffers s !! band);
  modify (λ s, set_filtered_buffers
                 (<[band := <[channel := a']> d]> (filtered_buffers s)) s).

(** Line 91: [filtered_buffers[band][channel][-1] = filtered_sample]. *)
Definition filt_assign (band channel : string) (filtered_sample : pyfloat)
  : M unit :=
  s ← get_state;
  d ← or_raise KeyError (filtered_buffers s !! band);
  a ← or_raise KeyError (d !! channel);
  array_setitem a (-1) filtered_sample.

(** Lines 94-95: [filtered_lines[band][i].set_data(np.arange(buffer_size),
    filtered_buffers[band][channel])] and
    [axes[i + 4].set_xlim(0, buffer_size)]. *)
Definition filt_publish (band : string) (i : Z) (channel : string) : M unit :=
  s ← get_state;
  ls ← or_raise KeyError (filtered_lines s !! band);
  k ← or_raise IndexError (py_index (length ls) i);
  d ← or_raise KeyError (filtered_buffers s !! band);
  a ← or_raise KeyError (d !! channel);
  modify (λ s, set_filtered_lines
                 (<[band := <[k := a]> ls]> (filtered_lines s)) s);;
  or_raise IndexError (py_index n_axes (i + 4));;
  ret tt.

(** Lines 89-95 for one band and one channel. *)
Definition update_filtered (sample : list pyfloat) (band : string)
    (low high : Qc) (i : Z) (channel : string) : M unit :=
  x ← or_raise IndexError (getitem sample i);
  filtered_sample ← filter_one x low high;
  filt_roll band channel;;
  filt_assign band channel filtered_sample;;
  filt_publish band i channel.

(** Line 101. *)
Definition header : list cell :=
  Str "Timestamp" :: (Str <$> channels cfg)
  ++ (Str <$> (band ← (BANDS cfg).*1;
               (λ ch, band +:+ " - " +:+ ch) <$> channels cfg)).

(** The expression [filtered_buffers[band][ch][-1]] of line 110. *)
Definition read_latest (band channel : string) : M pyfloat :=
  s ← get_state;
  d ← or_raise KeyError (filtered_buffers s !! band);
  a ← or_raise KeyError (d !! channel);
  array_getitem a (-1).

(** Lines 109-110: the newest value of every filtered window, band by band
    and channel by channel. *)
Definition latest_filtered : M (list pyfloat) :=
  rows ← comprehension (BANDS cfg).*1 (λ band,
    comprehension (channels cfg) (λ ch, read_latest band ch));
  ret (concat rows).

(** Lines 98-113. *)
Definition save_step (env : TickEnv) (sample : list pyfloat)
    (timestamp : pyfloat) : M unit :=
  s ← get_state;
  if decide (due cfg env s) then
    (* with open('eeg_data_live.csv', 'a', newline='') as csvfile: *)
    (if sink_ok env then ret tt else raise OSError);;
    s ← get_state;
    (* if csvfile.tell() == 0: writer.writerow(header) *)
    (if decide (csvfile s = []) then modify (set_csvfile [header])
     else ret tt);;
    filtered ← latest_filtered;
    let row := Num timestamp :: (Num <$> sample) ++ (Num <$> filtered) in
    modify (λ s, set_csvfile (csvfile s ++ [row]) s);;
    print (EvText "Data saved to eeg_data_live.csv");;
    (* last_save_time = time.time() *)
    modify (set_last_save_time (t_reset env))
  else ret tt.

(** Lines 71-95: pull a sample, shift it into the raw windows, filter it
    for every band and channel and shift the results into the filtered
    windows.  Returns what [pull_sample] returned. *)
Definition process_sample (pulled : exn + (list pyfloat * pyfloat))
  : M (list pyfloat * pyfloat) :=
  '(sample, timestamp) ← match pulled with
                         | inl e => raise e
                         | inr st => ret st
                         end;
  print (EvSample sample);;
  for_each (enumerate (channels cfg)) (λ '(i, channel),
    update_raw sample i channel);;
  for_each (BANDS cfg) (λ '(band, (low, high)),
    for_each (enumerate (channels cfg)) (λ '(i, channel),
      update_filtered sample band low high i channel));;
  ret (sample, timestamp).

(** Lines 71-116: one iteration of [while True].  ([plt.pause] only lets
    Matplotlib redraw; it is not modelled.) *)
Definition tick (env : TickEnv) : M unit :=
  '(sample, timestamp) ← process_sample (pulled env);
  save_step env sample timestamp.

(** For each iteration, whether it made the CSV file longer. *)
Fixpoint flush_trace (envs : list TickEnv) (s : State) : list bool :=
  match envs with
  | [] => []
  | env :: envs' =>
      let '(r, s') := tick env s in
      bool_decide (length (csvfile s) < length (csvfile s'))%nat
      :: match r with
         | Ok _ => flush_trace envs' s'
         | Raise _ => []
         end
  end.

(** The loop over the iterations the outside world supplies. *)
Definition main_loop (envs : list TickEnv) : M unit := for_each envs tick.

(** Lines 68-122: the loop under its [try]; only [KeyboardInterrupt] is
    caught.  (The [finally] clause only concerns the plot window.) *)
Definition script (stream_found : bool) (t0 : Qc) (envs : list TickEnv)
  : M unit :=
  startup stream_found t0;;
  try_except (main_loop envs) KeyboardInterrupt
    (print (EvText "Real-time plotting stopped.")).

(** The array a dictionary entry or a line refers to. *)
Definition raw_window (s : State) (channel : string) : option (list pyfloat) :=
  a ← raw_buffers s !! channel; heap s !! a.

Definition filtered_window (s : State) (band channel : string)
  : option (list pyfloat) :=
  d ← filtered_buffers s !! band; a ← d !! channel; heap s !! a.
End Script.

(** ** Reading windows and lines *)



(** The newest value of one filtered window, read as line 110 does. *)
Definition latest_of (s : State) (band channel : string) : option pyfloat :=
  arr ← filtered_window s band channel; getitem arr (-1).

(** Lines 109-110 as a function of the state: the newest values of all
    filtered windows, or nothing when a lookup would raise. *)
Definition latest_values (cfg : Config) (s : State) : option (list pyfloat) :=
  rows ← mapM (λ band, mapM (λ ch, latest_of s band ch) (channels cfg))
              (BANDS cfg).*1;
  Some (concat rows).

(** ** The CSV file after a save *)

(** Lines 101-111: the file after a save of [sample] at [timestamp]. *)
Definition csv_row (timestamp : pyfloat) (sample filtered : list pyfloat)
  : list cell :=
  Num timestamp :: (Num <$> sample) ++ (Num <$> filtered).

Definition csv_after_save (cfg : Config) (f : list (list cell))
    (row : list cell) : list (list cell) :=
  f ++ (if decide (f = []) then [header cfg] else []) ++ [row].

(** The state after a completed save (lines 99-113). *)
Definition saved_state (cfg : Config) (env : TickEnv) (row : list cell)
    (s : State) : State :=
  set_last_save_time (t_reset env)
    (set_stdout (stdout s ++ [EvText "Data saved to eeg_data_live.csv"])
       (set_csvfile (csv_after_save cfg (csvfile s) row) s)).



(** ** Invariants and relations between states *)

(** The address [a] holds an array of the configured capacity. *)
Definition sized_at (cfg : Config) (s : State) (a : nat) : Prop :=
  ∃ arr, heap s !! a = Some arr ∧ length arr = buffer_size cfg.

(** Every channel has a raw window, every band and channel a filtered one,
    and every window is an array of the configured capacity. *)
Definition windows_ok (cfg : Config) (s : State) : Prop :=
  (∀ ch, ch ∈ channels cfg → is_Some (raw_buffers s !! ch))
  ∧ (∀ ch a, raw_buffers s !! ch = Some a → sized_at cfg s a)
  ∧ (∀ band, band ∈ (BANDS cfg).*1 →
       ∃ d, filtered_buffers s !! band = Some d
            ∧ ∀ ch, ch ∈ channels cfg → is_Some (d !! ch))
  ∧ (∀ band d ch a, filtered_buffers s !! band = Some d → d !! ch = Some a →
       sized_at cfg s a).

(** A dictionary from channel names to full-size arrays. *)
Definition channel_dict_ok (cfg : Config) (d : gmap string nat) (s : State)
  : Prop :=
  (∀ ch, ch ∈ channels cfg → is_Some (d !! ch))
  ∧ (∀ ch a, d !! ch = Some a → sized_at cfg s a).

(** What array allocations alone do to a state: the heap grows, the window
    dictionaries stay. *)
Definition alloc_rel (s s' : State) : Prop :=
  heap s `prefix_of` heap s'
  ∧ raw_buffers s' = raw_buffers s
  ∧ filtered_buffers s' = filtered_buffers s.

(** What lines 71-95 may do to the state [s0] they start from: allocate
    arrays and leave the existing ones, the CSV file and the save timer as
    they are. *)
Definition stage_rel (s0 s : State) : Prop :=
  heap s0 `prefix_of` heap s
  ∧ csvfile s = csvfile s0
  ∧ last_save_time s = last_save_time s0.


(** ** Triples *)

(** Hoare triples for statements: from a state satisfying [P], a normal
    return satisfies [Q], a raised exception leaves a state satisfying [E]. *)
Definition triple {A} (P : State → Prop) (m : M A) (Q : A → State → Prop)
    (E : State → Prop) : Prop :=
  ∀ s, P s → match m s with
             | (Ok a, s') => Q a s'
             | (Raise _, s') => E s'
             end.

(** A statement keeps the invariant [I], however it ends. *)
Definition keeps {A} (I : State → Prop) (m : M A) : Prop :=
  triple I m (λ _, I) I.

(** ** The stateful filter of the specification *)

(** The filter as the specification words it: one instance per (channel,
    band) whose delay line survives from one [apply] to the next.  Each call
    filters one sample starting from the delay line the previous call left. *)
Fixpoint spec_stateful_stream (b a z : list pyfloat) (xs : list pyfloat)
  : list pyfloat :=
  match xs with
  | [] => []
  | x :: xs' =>
      let '(y, z') := lfilter_zi b a [x] z in
      y ++ spec_stateful_stream b a z' xs'
  end.

(** The outputs of line 89 for a stream, [[]] when a call raises. *)
Definition stream_outputs (r : result (list pyfloat)) : list pyfloat :=
  match r with Ok ys => ys | Raise _ => [] end.

(** ** Concrete inputs *)

(** A stand-in for SciPy's design routine, used only to run the script on
    concrete inputs.  It accepts the cutoffs SciPy documents as valid
    ([0 < low < high < 1]) and raises [ValueError] otherwise; the numerator
    has the band-pass shape [k, 0, -k] and the denominator starts with 1. *)
Definition demo_butter (order : nat) (low high : Qc)
  : exn + (list pyfloat * list pyfloat) :=
  if decide (0 < low ∧ low < high ∧ high < 1)%Qc then
    let k := ((high - low) / 2)%Qc in
    inr ([Fin k; fzero; Fin (- k)%Qc],
         [fone; Fin (- Q2Qc (1 # 2))%Qc; Fin (Q2Qc (1 # 4))])
  else inl ValueError.

(** A design routine that accepts every pair of cutoffs. *)
Definition lenient_butter (order : nat) (low high : Qc)
  : exn + (list pyfloat * list pyfloat) :=
  inr ([fone], [fone]).

(** A sample of four finite readings and an iteration that receives it. *)
Definition fin (z : Z) : pyfloat := Fin (Qc_of_Z z).

Definition sample_env (xs : list Z) (timestamp : Z) (t : Z) (ok : bool) (t' : Z)
  : TickEnv :=
  mkTickEnv (inr (fin <$> xs, fin timestamp)) (Qc_of_Z t) ok (Qc_of_Z t').

(** Loop iterations used in the examples: a first one at time 0; one whose
    save test reads 20 s and whose timer reset reads 21 s; one at 20 s that
    cannot open the file; and the one that would follow it. *)
Definition first_env : TickEnv := sample_env [1; 2; 3; 4] 100 0 true 0.
Definition due_env : TickEnv := sample_env [1; 2; 3; 4] 100 20 true 21.
Definition failing_env : TickEnv := sample_env [1; 2; 3; 4] 100 20 false 20.
Definition next_env : TickEnv := sample_env [5; 6; 7; 8] 101 40 true 40.

(** The specification's example for the save timer: save attempts at
    [t = 0, 5, 19, 20, 25] seconds, each reading the same time again when it
    resets the timer. *)
Definition gate_attempts : list TickEnv :=
  (λ t, sample_env [1; 2; 3; 4] 100 t true t) <$> [0; 5; 19; 20; 25].

(** The state the script is in when its loop starts, with no CSV file yet
    and the start-up clock reading at 0. *)
Definition muse_start : State :=
  snd (startup muse_config true 0%Qc (empty_state [])).

(** What [demo_butter] returns for the 4-8 Hz band at rate 256. *)
Definition demo_theta_b : list pyfloat :=
  [Fin (Q2Qc (1 # 64)); fzero; Fin (- Q2Qc (1 # 64))%Qc].
Definition demo_theta_a : list pyfloat :=
  [fone; Fin (- Q2Qc (1 # 2))%Qc; Fin (Q2Qc (1 # 4))].

(** The script's outputs for a stream on that band, and those of the
    specification's stateful filter with the same coefficients. *)
Definition script_stream (xs : list pyfloat) : list pyfloat :=
  stream_outputs
    (fst (filter_stream demo_butter muse_config xs (Qc_of_Z 4) (Qc_of_Z 8)
            (empty_state []))).
Definition stateful_stream (xs : list pyfloat) : list pyfloat :=
  spec_stateful_stream demo_theta_b demo_theta_a [fzero; fzero] xs.

(** A configuration whose bands are the two invalid pairs of the
    specification's example, at rate 256. *)
Definition invalid_bands_config : Config :=
  mkConfig (Qc_of_Z 256) (256 * 5)%nat (channels muse_config)
    [("Reversed", (Qc_of_Z 10, Qc_of_Z 5));
     ("Above Nyquist", (Qc_of_Z 4, Qc_of_Z 130))]%string
    (Qc_of_Z 20).

(** The state in which the loop starts with the invalid bands. *)
Definition invalid_bands_start : State :=
  snd (startup invalid_bands_config true 0%Qc (empty_state [])).

(** * Proofs *)

Ltac unfold_monad :=
  unfold mbind, M_bind, bind, mret, M_ret, ret, raise, or_raise, get_state,
    modify, print in *.

(** Decide a closed equation or order by evaluation. *)
Ltac by_eval := apply (bool_decide_unpack _); vm_compute; exact I.

(** ** Arrays *)

Section ArrayFacts.
Context {A : Type}.
Implicit Types (a buf : list A) (v x : A).

Lemma np_full_length n v : length (np_full n v) = n.
Proof. apply length_replicate. Qed.

Lemma np_roll_length a shift : length (np_roll a shift) = length a.
Proof.
  unfold np_roll. destruct (length a) eqn:E; [done|].
  rewrite length_app, length_drop, length_take. lia.
Qed.

Lemma np_roll_cons x a : np_roll (x :: a) (-1) = a ++ [x].
Proof.
  unfold np_roll. cbn [length].
  destruct a as [|y a]; [done|].
  assert (Z.to_nat ((- (-1)) `mod` Z.of_nat (S (length (y :: a)))) = 1%nat)
    as ->.
  { cbn [length]. rewrite Z.mod_small; lia. }
  reflexivity.
Qed.

Lemma py_index_last n : py_index (S n) (-1) = Some n.
Proof.
  unfold py_index. rewrite decide_False by lia. rewrite decide_True by lia.
  f_equal. lia.
Qed.

Lemma py_index_lt n i k : py_index n i = Some k → (k < n)%nat.
Proof.
  unfold py_index. repeat case_decide; intros; simplify_eq; lia.
Qed.

Lemma setitem_length a i v a' : setitem a i v = Some a' → length a' = length a.
Proof.
  unfold setitem. destruct (py_index _ _); intros; simplify_eq/=.
  apply length_insert.
Qed.

Lemma getitem_last x a : getitem (a ++ [x]) (-1) = Some x.
Proof.
  unfold getitem. rewrite length_app, Nat.add_comm. cbn [length Nat.add].
  rewrite py_index_last. cbn. by rewrite list_lookup_middle.
Qed.

Lemma getitem_is_Some a i : is_Some (py_index (length a) i) → is_Some (getitem a i).
Proof.
  intros [k Hk]. unfold getitem. rewrite Hk. cbn.
  apply lookup_lt_is_Some. by eapply py_index_lt.
Qed.

Lemma window_push_cons x a v : window_push (x :: a) v = Some (a ++ [v]).
Proof.
  unfold window_push, setitem. rewrite np_roll_cons.
  rewrite length_app, Nat.add_comm. cbn [length Nat.add].
  rewrite py_index_last. cbn. f_equal.
  rewrite insert_app_r_alt by lia. by rewrite Nat.sub_diag.
Qed.

Lemma window_push_nil v : window_push (@nil A) v = None.
Proof. done. Qed.

Lemma window_push_length buf v buf' :
  window_push buf v = Some buf' → length buf' = length buf.
Proof.
  unfold window_push. intros H. apply setitem_length in H.
  by rewrite np_roll_length in H.
Qed.

End ArrayFacts.

(** ** Floats and [lfilter] *)

Lemma fadd_zero_l v : fadd fzero v = v.
Proof. destruct v as [|q]; [done|]. cbn. by rewrite Qcplus_0_l. Qed.

Lemma fdiv_one_r v : fdiv v fone = v.
Proof.
  destruct v as [|p]; [done|]. cbn.
  rewrite decide_False by done. f_equal. apply Qcdiv_right_id.
Qed.

Lemma hd_replicate_fzero n : hd fzero (replicate n fzero) = fzero.
Proof. by destruct n. Qed.

(** On a one-element input the recurrence has no past to use: the output is
    the input scaled by [b[0] / a[0]]. *)
Lemma lfilter_single b0 bs a x :
  lfilter (b0 :: bs) a [x] = [fmul (fdiv b0 (hd fzero a)) x].
Proof.
  unfold lfilter, lfilter_zi, normalise, pad_to. cbn.
  by rewrite hd_replicate_fzero, fadd_zero_l.
Qed.

Lemma half_fs_nonzero (fs : Qc) : fs ≠ 0%Qc → (Q2Qc (1 # 2) * fs)%Qc ≠ 0%Qc.
Proof.
  intros Hfs H. apply Qcmult_integral in H as [H|H]; [|done].
  discriminate H.
Qed.

(** ** Rules for triples *)

Section Rules.
Context {A B : Type}.
Implicit Types (P E : State → Prop).

Lemma triple_ret P (a : A) (Q : A → State → Prop) E :
  (∀ s, P s → Q a s) → triple P (mret a) Q E.
Proof. intros H s Hs. by apply H. Qed.

Lemma triple_raise P e (Q : A → State → Prop) E :
  (∀ s, P s → E s) → triple P (raise e) Q E.
Proof. intros H s Hs. by apply H. Qed.

Lemma triple_bind P (m : M A) (f : A → M B) Q (Q' : B → State → Prop) E :
  triple P m Q E → (∀ a, triple (Q a) (f a) Q' E) → triple P (m ≫= f) Q' E.
Proof.
  intros Hm Hf s Hs. specialize (Hm s Hs). unfold_monad.
  destruct (m s) as [[a|e] s1]; [|done]. by apply Hf.
Qed.

Lemma triple_weaken P P' (m : M A) Q Q' E E' :
  triple P' m Q' E' → (∀ s, P s → P' s) → (∀ a s, Q' a s → Q a s) →
  (∀ s, E' s → E s) → triple P m Q E.
Proof.
  intros Hm HP HQ HE s Hs. specialize (Hm s (HP s Hs)).
  destruct (m s) as [[a|e] s1]; eauto.
Qed.

Lemma triple_or_raise P e (o : option A) (Q : A → State → Prop) E :
  (∀ s, P s → match o with Some a => Q a s | None => E s end) →
  triple P (or_raise e o) Q E.
Proof. intros H s Hs. specialize (H s Hs). by destruct o. Qed.
End Rules.

Lemma triple_get_state P (Q : State → State → Prop) E :
  (∀ s, P s → Q s s) → triple P get_state Q E.
Proof. intros H s Hs. by apply H. Qed.

Lemma triple_modify P f (Q : unit → State → Prop) E :
  (∀ s, P s → Q tt (f s)) → triple P (modify f) Q E.
Proof. intros H s Hs. by apply H. Qed.

Lemma keeps_bind {A B} I (m : M A) (f : A → M B) :
  keeps I m → (∀ a, keeps I (f a)) → keeps I (m ≫= f).
Proof. intros Hm Hf. by apply triple_bind with (Q := λ _, I). Qed.

Lemma keeps_for_each {A} I (l : list A) body :
  (∀ x, x ∈ l → keeps I (body x)) → keeps I (for_each l body).
Proof.
  induction l as [|x l IH]; intros Hb.
  - by apply triple_ret.
  - cbn [for_each]. apply keeps_bind.
    + apply Hb. by left.
    + intros _. apply IH. intros y Hy. apply Hb. by right.
Qed.

Lemma keeps_comprehension {A B} I (l : list A) (f : A → M B) :
  (∀ x, keeps I (f x)) → keeps I (comprehension l f).
Proof.
  intros Hf. induction l as [|x l IH].
  - by apply triple_ret.
  - cbn [comprehension]. apply keeps_bind; [done|]. intros y.
    apply keeps_bind; [done|]. intros ys. by apply triple_ret.
Qed.

Lemma keeps_or_raise {A} I e (o : option A) : keeps I (or_raise e o).
Proof. apply triple_or_raise. intros s Hs. by destruct o. Qed.

Lemma keeps_get_state I : keeps I get_state.
Proof. by apply triple_get_state. Qed.

Lemma keeps_ret {A} I (a : A) : keeps I (mret a).
Proof. by apply triple_ret. Qed.

Lemma keeps_raise {A} I e : keeps I (@raise A e).
Proof. by apply triple_raise. Qed.

Lemma keeps_modify I f : (∀ s, I s → I (f s)) → keeps I (modify f).
Proof. intros H. by apply triple_modify. Qed.

(** ** The statements, one equation each *)

Lemma array_setitem_eq a i v s :
  array_setitem a i v s =
    match heap s !! a with
    | None => (Raise IndexError, s)
    | Some arr =>
        match setitem arr i v with
        | None => (Raise IndexError, s)
        | Some arr' => (Ok tt, set_heap (<[a := arr']> (heap s)) s)
        end
    end.
Proof.
  unfold array_setitem, deref. unfold_monad. cbn.
  destruct (heap s !! a) as [arr|]; [cbn|done].
  destruct (setitem arr i v); done.
Qed.

Lemma array_getitem_eq a i s :
  array_getitem a i s =
    match heap s !! a with
    | None => (Raise IndexError, s)
    | Some arr =>
        match getitem arr i with
        | None => (Raise IndexError, s)
        | Some x => (Ok x, s)
        end
    end.
Proof.
  unfold array_getitem, deref. unfold_monad. cbn.
  destruct (heap s !! a) as [arr|]; [cbn|done].
  destruct (getitem arr i); done.
Qed.

Lemma raw_roll_eq ch s :
  raw_roll ch s =
    match raw_buffers s !! ch with
    | None => (Raise KeyError, s)
    | Some a =>
        match heap s !! a with
        | None => (Raise IndexError, s)
        | Some arr =>
            (Ok tt, set_raw_buffers (<[ch := length (heap s)]> (raw_buffers s))
                      (set_heap (heap s ++ [np_roll arr (-1)]) s))
        end
    end.
Proof.
  unfold raw_roll, deref, alloc. unfold_monad. cbn.
  destruct (raw_buffers s !! ch) as [a|]; [cbn|done].
  destruct (heap s !! a) as [arr|]; done.
Qed.

Lemma raw_assign_eq sample i ch s :
  raw_assign sample i ch s =
    match getitem sample i with
    | None => (Raise IndexError, s)
    | Some x =>
        match raw_buffers s !! ch with
        | None => (Raise KeyError, s)
        | Some a => array_setitem a (-1) x s
        end
    end.
Proof.
  unfold raw_assign. unfold_monad.
  destruct (getitem sample i); [cbn|done].
  destruct (raw_buffers s !! ch); done.
Qed.

Lemma raw_publish_eq i ch s :
  raw_publish i ch s =
    match py_index (length (raw_lines s)) i with
    | None => (Raise IndexError, s)
    | Some k =>
        match raw_buffers s !! ch with
        | None => (Raise KeyError, s)
        | Some a =>
            let s1 := set_raw_lines (<[k := a]> (raw_lines s)) s in
            match py_index n_axes i with
            | None => (Raise IndexError, s1)
            | Some _ => (Ok tt, s1)
            end
        end
    end.
Proof.
  unfold raw_publish. unfold_monad. cbn.
  destruct (py_index (length (raw_lines s)) i); [cbn|done].
  destruct (raw_buffers s !! ch); [cbn|done].
  destruct (py_index n_axes i); done.
Qed.

Lemma filt_roll_eq band ch s :
  filt_roll band ch s =
    match filtered_buffers s !! band with
    | None => (Raise KeyError, s)
    | Some d =>
        match d !! ch with
        | None => (Raise KeyError, s)
        | Some a =>
            match heap s !! a with
            | None => (Raise IndexError, s)
            | Some arr =>
                (Ok tt,
                 set_filtered_buffers
                   (<[band := <[ch := length (heap s)]> d]> (filtered_buffers s))
                   (set_heap (heap s ++ [np_roll arr (-1)]) s))
            end
        end
    end.
Proof.
  unfold filt_roll, deref, alloc. unfold_monad. cbn.
  destruct (filtered_buffers s !! band) as [d|] eqn:Hd; [cbn|done].
  destruct (d !! ch) as [a|]; [cbn|done].
  destruct (heap s !! a) as [arr|]; [cbn|done].
  by rewrite Hd.
Qed.

Lemma filt_assign_eq band ch v s :
  filt_assign band ch v s =
    match filtered_buffers s !! band with
    | None => (Raise KeyError, s)
    | Some d =>
        match d !! ch with
        | None => (Raise KeyError, s)
        | Some a => array_setitem a (-1) v s
        end
    end.
Proof.
  unfold filt_assign. unfold_monad. cbn.
  destruct (filtered_buffers s !! band) as [d|]; [cbn|done].
  destruct (d !! ch); done.
Qed.

Lemma filt_publish_eq band i ch s :
  filt_publish band i ch s =
    match filtered_lines s !! band with
    | None => (Raise KeyError, s)
    | Some ls =>
        match py_index (length ls) i with
        | None => (Raise IndexError, s)
        | Some k =>
            match filtered_buffers s !! band with
            | None => (Raise KeyError, s)
            | Some d =>
                match d !! ch with
                | None => (Raise KeyError, s)
                | Some a =>
                    let s1 := set_filtered_lines
                                (<[band := <[k := a]> ls]> (filtered_lines s)) s in
                    match py_index n_axes (i + 4) with
                    | None => (Raise IndexError, s1)
                    | Some _ => (Ok tt, s1)
                    end
                end
            end
        end
    end.
Proof.
  unfold filt_publish. unfold_monad. cbn.
  destruct (filtered_lines s !! band) as [ls|]; [cbn|done].
  destruct (py_index (length ls) i); [cbn|done].
  destruct (filtered_buffers s !! band) as [d|]; [cbn|done].
  destruct (d !! ch); [cbn|done].
  destruct (py_index n_axes (i + 4)); done.
Qed.

Section FilterCall.
Context (butter : nat → Qc → Qc → exn + (list pyfloat * list pyfloat)).

(** [bandpass_filter] does nothing to its cutoffs but divide them by half
    the sample rate: what it returns or raises is decided by [butter]. *)
Lemma bandpass_filter_eq data lo hi fs ord s :
  fs ≠ 0%Qc →
  bandpass_filter butter data lo hi fs ord s =
    match butter ord (lo / (Q2Qc (1 # 2) * fs))%Qc
                     (hi / (Q2Qc (1 # 2) * fs))%Qc with
    | inl e => (Raise e, s)
    | inr (b, a) =>
        (Ok (lfilter b a data),
         set_stdout (stdout s ++ [EvFilter lo hi data (lfilter b a data)]) s)
    end.
Proof.
  intros Hfs. unfold bandpass_filter, py_div, call_butter.
  destruct (decide _) as [H|_]; [by apply half_fs_nonzero in H|].
  unfold_monad. destruct (butter _ _ _) as [e|[b a]]; done.
Qed.

Lemma bandpass_filter_zero_fs data lo hi ord s :
  bandpass_filter butter data lo hi 0%Qc ord s = (Raise ZeroDivisionError, s).
Proof.
  unfold bandpass_filter, py_div. rewrite Qcmult_0_r.
  destruct (decide _) as [_|H]; [by unfold_monad|done].
Qed.

(** Whatever the state, the call returns the same value or raises the same
    exception, and it changes nothing but the printed output. *)
Lemma bandpass_filter_state data lo hi fs ord :
  ∃ r, ∀ s', ∃ out,
    bandpass_filter butter data lo hi fs ord s' = (r, set_stdout out s').
Proof.
  destruct (decide (fs = 0%Qc)) as [->|Hfs].
  - exists (Raise ZeroDivisionError). intros s'. exists (stdout s').
    rewrite bandpass_filter_zero_fs. by destruct s'.
  - destruct (butter ord (lo / (Q2Qc (1 # 2) * fs))%Qc
                         (hi / (Q2Qc (1 # 2) * fs))%Qc) as [e|[b a]] eqn:Hb.
    + exists (Raise e). intros s'. exists (stdout s').
      rewrite bandpass_filter_eq, Hb by done. by destruct s'.
    + exists (Ok (lfilter b a data)). intros s'. eexists.
      rewrite bandpass_filter_eq, Hb by done. done.
Qed.
End FilterCall.

(** ** Window sizes are invariant *)

Section WindowsOk.
Context (cfg : Config).

Lemma sized_at_prefix s s' a :
  heap s `prefix_of` heap s' → sized_at cfg s a → sized_at cfg s' a.
Proof.
  intros [k Hk] (arr & Ha & Hlen). exists arr. split; [|done].
  rewrite Hk. by apply lookup_app_l_Some.
Qed.

Lemma windows_ok_frame s s' :
  raw_buffers s' = raw_buffers s →
  filtered_buffers s' = filtered_buffers s →
  (∀ a, sized_at cfg s a → sized_at cfg s' a) →
  windows_ok cfg s → windows_ok cfg s'.
Proof.
  intros Hr Hf Hs (H1 & H2 & H3 & H4). unfold windows_ok.
  rewrite Hr, Hf. naive_solver.
Qed.

Lemma windows_ok_same s s' :
  heap s' = heap s →
  raw_buffers s' = raw_buffers s →
  filtered_buffers s' = filtered_buffers s →
  windows_ok cfg s → windows_ok cfg s'.
Proof.
  intros Hh Hr Hf. apply windows_ok_frame; [done..|].
  intros a. unfold sized_at. by rewrite Hh.
Qed.

Lemma sized_at_insert s a arr arr' a2 :
  heap s !! a = Some arr → length arr' = length arr →
  sized_at cfg s a2 → sized_at cfg (set_heap (<[a := arr']> (heap s)) s) a2.
Proof.
  intros Ha Hlen (arr2 & Ha2 & Hlen2). unfold sized_at. cbn.
  destruct (decide (a = a2)) as [->|Hne].
  - exists arr'. split; [|congruence].
    apply list_lookup_insert_eq. by eapply lookup_lt_Some.
  - exists arr2. by rewrite list_lookup_insert_ne.
Qed.

Lemma keeps_windows_ok_setitem a i v :
  keeps (windows_ok cfg) (array_setitem a i v).
Proof.
  intros s Hs. rewrite array_setitem_eq.
  destruct (heap s !! a) as [arr|] eqn:Ha; [|done].
  destruct (setitem arr i v) as [arr'|] eqn:Hset; [|done].
  revert Hs. apply windows_ok_frame; [done..|]. intros a2.
  eapply sized_at_insert; [done|]. by eapply setitem_length.
Qed.

Lemma sized_at_alloc s arr a :
  sized_at cfg s a → sized_at cfg (set_heap (heap s ++ [arr]) s) a.
Proof. apply sized_at_prefix. cbn. by apply prefix_app_r. Qed.

Lemma sized_at_fresh s arr :
  length arr = buffer_size cfg →
  sized_at cfg (set_heap (heap s ++ [arr]) s) (length (heap s)).
Proof. intros Hlen. exists arr. split; [|done]. cbn. apply list_lookup_middle. done. Qed.

Lemma keeps_windows_ok_raw_roll ch : keeps (windows_ok cfg) (raw_roll ch).
Proof.
  intros s Hs. rewrite raw_roll_eq.
  destruct (raw_buffers s !! ch) as [a|] eqn:Hch; [|done].
  destruct (heap s !! a) as [arr|] eqn:Ha; [|done].
  destruct Hs as (H1 & H2 & H3 & H4).
  assert (length (np_roll arr (-1)) = buffer_size cfg) as Hlen.
  { rewrite np_roll_length. destruct (H2 _ _ Hch) as (? & ? & ?). congruence. }
  split_and!; cbn.
  - intros c Hc. apply lookup_insert_is_Some'. right. by apply H1.
  - intros c a2. rewrite lookup_insert. case_decide; intros; simplify_eq.
    + by apply sized_at_fresh.
    + apply sized_at_alloc. by eapply H2.
  - done.
  - intros band d c a2 Hd Hc. apply sized_at_alloc. by eapply H4.
Qed.

Lemma keeps_windows_ok_filt_roll band ch :
  keeps (windows_ok cfg) (filt_roll band ch).
Proof.
  intros s Hs. rewrite filt_roll_eq.
  destruct (filtered_buffers s !! band) as [d|] eqn:Hd; [|done].
  destruct (d !! ch) as [a|] eqn:Hch; [|done].
  destruct (heap s !! a) as [arr|] eqn:Ha; [|done].
  destruct Hs as (H1 & H2 & H3 & H4).
  assert (length (np_roll arr (-1)) = buffer_size cfg) as Hlen.
  { rewrite np_roll_length. destruct (H4 _ _ _ _ Hd Hch) as (? & ? & ?).
    congruence. }
  split_and!; cbn.
  - done.
  - intros c a2 Hc. apply sized_at_alloc. by eapply H2.
  - intros b Hb. rewrite lookup_insert. case_decide as Hbb; simplify_eq.
    + eexists. split; [done|]. intros c Hc.
      apply lookup_insert_is_Some'. right.
      destruct (H3 _ Hb) as (d' & Hd' & Hk). simplify_eq. by apply Hk.
    + by apply H3.
  - intros b d' c a2. rewrite lookup_insert. case_decide; intros Hd' Hc.
    + simplify_eq. revert Hc. rewrite lookup_insert.
      case_decide; intros; simplify_eq.
      * by apply sized_at_fresh.
      * apply sized_at_alloc. by eapply H4.
    + apply sized_at_alloc. by eapply H4.
Qed.
End WindowsOk.

(** ** What each statement may change *)

Lemma keeps_of_effect {A} (I : State → Prop) (m : M A) (F : State → State → Prop) :
  (∀ s, F s (snd (m s))) → (∀ s s', F s s' → I s → I s') → keeps I m.
Proof.
  intros Hm HF s Hs. specialize (Hm s).
  destruct (m s) as [[a|e] s']; cbn in Hm; eauto.
Qed.

Lemma set_stdout_id s : set_stdout (stdout s) s = s.
Proof. by destruct s. Qed.
Lemma set_raw_lines_id s : set_raw_lines (raw_lines s) s = s.
Proof. by destruct s. Qed.
Lemma set_filtered_lines_id s : set_filtered_lines (filtered_lines s) s = s.
Proof. by destruct s. Qed.

Lemma raw_publish_effect i ch s :
  ∃ l, snd (raw_publish i ch s) = set_raw_lines l s.
Proof.
  rewrite raw_publish_eq.
  repeat case_match; eauto using eq_sym, set_raw_lines_id.
Qed.

Lemma filt_publish_effect band i ch s :
  ∃ d, snd (filt_publish band i ch s) = set_filtered_lines d s.
Proof.
  rewrite filt_publish_eq.
  repeat case_match; eauto using eq_sym, set_filtered_lines_id.
Qed.

Section Effects.
Context (butter : nat → Qc → Qc → exn + (list pyfloat * list pyfloat)).
Context (cfg : Config).

Lemma bandpass_filter_effect data lo hi fs ord s :
  ∃ out, snd (bandpass_filter butter data lo hi fs ord s) = set_stdout out s.
Proof.
  destruct (bandpass_filter_state butter data lo hi fs ord) as [r Hr].
  destruct (Hr s) as [out ->]. by exists out.
Qed.

Lemma filter_one_effect x lo hi s :
  ∃ out, snd (filter_one butter cfg x lo hi s) = set_stdout out s.
Proof.
  unfold filter_one. unfold_monad.
  destruct (bandpass_filter_state butter [x] lo hi (fs cfg) 4) as [r Hr].
  destruct (Hr s) as [out ->]. exists out.
  destruct r as [y|e]; [cbn|done]. by destruct (getitem y 0).
Qed.

End Effects.

(** ** Lines 71-95 never write to an array that existed before *)

Lemma prefix_insert_ge {A} (l0 l : list A) a v :
  l0 `prefix_of` l → (length l0 ≤ a)%nat → l0 `prefix_of` <[a := v]> l.
Proof.
  intros [k ->] Hle. rewrite insert_app_r_alt by done. by apply prefix_app_r.
Qed.

Section Stages.
Context (butter : nat → Qc → Qc → exn + (list pyfloat * list pyfloat)).
Context (cfg : Config).
Context (s0 : State).

Lemma stage_rel_refl : stage_rel s0 s0.
Proof. done. Qed.

Lemma stage_rel_stdout o s : stage_rel s0 s → stage_rel s0 (set_stdout o s).
Proof. done. Qed.
Lemma stage_rel_raw_lines l s : stage_rel s0 s → stage_rel s0 (set_raw_lines l s).
Proof. done. Qed.
Lemma stage_rel_filtered_lines d s :
  stage_rel s0 s → stage_rel s0 (set_filtered_lines d s).
Proof. done. Qed.

Lemma stage_rel_setitem_fresh a i v :
  triple (λ s, stage_rel s0 s ∧ (length (heap s0) ≤ a)%nat)
    (array_setitem a i v) (λ _, stage_rel s0) (stage_rel s0).
Proof.
  intros s [Hs Ha]. rewrite array_setitem_eq.
  destruct (heap s !! a) as [arr|]; [|done].
  destruct (setitem arr i v) as [arr'|]; [|done].
  destruct Hs as (Hp & Hc & Ht). split_and!; cbn; [|done..].
  by apply prefix_insert_ge.
Qed.

Lemma stage_rel_raw_roll ch :
  triple (stage_rel s0) (raw_roll ch)
    (λ _ s, stage_rel s0 s
            ∧ ∃ a, raw_buffers s !! ch = Some a ∧ (length (heap s0) ≤ a)%nat)
    (stage_rel s0).
Proof.
  intros s Hs. rewrite raw_roll_eq.
  destruct (raw_buffers s !! ch) as [a|]; [|done].
  destruct (heap s !! a) as [arr|]; [|done].
  destruct Hs as (Hp & Hc & Ht). split.
  - split_and!; cbn; [|done..]. by apply prefix_app_r.
  - exists (length (heap s)). cbn. rewrite lookup_insert_eq. split; [done|].
    by apply prefix_length.
Qed.

Lemma stage_rel_raw_assign sample i ch :
  triple (λ s, stage_rel s0 s
               ∧ ∃ a, raw_buffers s !! ch = Some a ∧ (length (heap s0) ≤ a)%nat)
    (raw_assign sample i ch) (λ _, stage_rel s0) (stage_rel s0).
Proof.
  intros s (Hs & a & Ha & Hle). rewrite raw_assign_eq, Ha.
  destruct (getitem sample i); [|done].
  by apply stage_rel_setitem_fresh.
Qed.

Lemma stage_rel_raw_publish i ch : keeps (stage_rel s0) (raw_publish i ch).
Proof.
  apply keeps_of_effect with (F := λ s s', ∃ l, s' = set_raw_lines l s).
  - apply raw_publish_effect.
  - intros s s' [l Hl]. rewrite Hl. apply stage_rel_raw_lines.
Qed.

Lemma stage_rel_update_raw sample i ch :
  keeps (stage_rel s0) (update_raw sample i ch).
Proof.
  unfold update_raw.
  eapply triple_bind; [apply stage_rel_raw_roll|]. intros [].
  eapply triple_bind; [apply stage_rel_raw_assign|]. intros [].
  apply stage_rel_raw_publish.
Qed.

Lemma stage_rel_filt_roll band ch :
  triple (stage_rel s0) (filt_roll band ch)
    (λ _ s, stage_rel s0 s
            ∧ ∃ d a, filtered_buffers s !! band = Some d ∧ d !! ch = Some a
                     ∧ (length (heap s0) ≤ a)%nat)
    (stage_rel s0).
Proof.
  intros s Hs. rewrite filt_roll_eq.
  destruct (filtered_buffers s !! band) as [d|]; [|done].
  destruct (d !! ch) as [a|]; [|done].
  destruct (heap s !! a) as [arr|]; [|done].
  destruct Hs as (Hp & Hc & Ht). split.
  - split_and!; cbn; [|done..]. by apply prefix_app_r.
  - eexists _, (length (heap s)). cbn. rewrite !lookup_insert_eq.
    split_and!; [done..|]. by apply prefix_length.
Qed.

Lemma stage_rel_filt_assign band ch v :
  triple (λ s, stage_rel s0 s
               ∧ ∃ d a, filtered_buffers s !! band = Some d ∧ d !! ch = Some a
                        ∧ (length (heap s0) ≤ a)%nat)
    (filt_assign band ch v) (λ _, stage_rel s0) (stage_rel s0).
Proof.
  intros s (Hs & d & a & Hd & Ha & Hle). rewrite filt_assign_eq, Hd, Ha.
  by apply stage_rel_setitem_fresh.
Qed.

Lemma stage_rel_filt_publish band i ch :
  keeps (stage_rel s0) (filt_publish band i ch).
Proof.
  apply keeps_of_effect with (F := λ s s', ∃ d, s' = set_filtered_lines d s).
  - apply filt_publish_effect.
  - intros s s' [l Hl]. rewrite Hl. apply stage_rel_filtered_lines.
Qed.

Lemma stage_rel_filter_one x lo hi :
  keeps (stage_rel s0) (filter_one butter cfg x lo hi).
Proof.
  apply keeps_of_effect with (F := λ s s', ∃ o, s' = set_stdout o s).
  - apply filter_one_effect.
  - intros s s' [l Hl]. rewrite Hl. apply stage_rel_stdout.
Qed.

Lemma stage_rel_update_filtered sample band lo hi i ch :
  keeps (stage_rel s0) (update_filtered butter cfg sample band lo hi i ch).
Proof.
  unfold update_filtered.
  apply keeps_bind; [apply keeps_or_raise|]. intros x.
  apply keeps_bind; [apply stage_rel_filter_one|]. intros y.
  eapply triple_bind; [apply stage_rel_filt_roll|]. intros [].
  eapply triple_bind; [apply stage_rel_filt_assign|]. intros [].
  apply stage_rel_filt_publish.
Qed.

Lemma stage_rel_process_sample p :
  keeps (stage_rel s0) (process_sample butter cfg p).
Proof.
  unfold process_sample.
  apply keeps_bind.
  { destruct p; [apply keeps_raise|apply keeps_ret]. }
  intros [sample timestamp].
  apply keeps_bind; [by apply keeps_modify|]. intros _.
  apply keeps_bind.
  { apply keeps_for_each. intros [i ch] _. apply stage_rel_update_raw. }
  intros _. apply keeps_bind.
  { apply keeps_for_each. intros [band [lo hi]] _.
    apply keeps_for_each. intros [i ch] _. apply stage_rel_update_filtered. }
  intros _. apply keeps_ret.
Qed.
End Stages.

(** ** Reading the newest filtered values *)

Lemma comprehension_reads {A B} (f : A → M B) (g : A → option B) s l :
  (∀ x, match g x with
        | Some y => f x s = (Ok y, s)
        | None => ∃ e, f x s = (Raise e, s)
        end) →
  match mapM g l with
  | Some ys => comprehension l f s = (Ok ys, s)
  | None => ∃ e, comprehension l f s = (Raise e, s)
  end.
Proof.
  intros Hf. induction l as [|x l IH]; [done|].
  cbn [comprehension mapM]. unfold_monad. specialize (Hf x).
  destruct (g x) as [y|]; cbn.
  - rewrite Hf. destruct (mapM g l) as [ys|]; cbn.
    + by rewrite IH.
    + destruct IH as [e ->]. by exists e.
  - destruct Hf as [e ->]. by exists e.
Qed.

Lemma read_latest_reads s band ch :
  match latest_of s band ch with
  | Some y => read_latest band ch s = (Ok y, s)
  | None => ∃ e, read_latest band ch s = (Raise e, s)
  end.
Proof.
  unfold latest_of, filtered_window, read_latest. unfold_monad. cbn.
  destruct (filtered_buffers s !! band) as [d|]; cbn; [|by eexists].
  destruct (d !! ch) as [a|]; cbn; [|by eexists].
  rewrite array_getitem_eq.
  destruct (heap s !! a) as [arr|]; cbn; [|by eexists].
  destruct (getitem arr (-1)); [done|by eexists].
Qed.

Section Latest.
Context (cfg : Config).

Lemma latest_filtered_reads s :
  match latest_values cfg s with
  | Some vs => latest_filtered cfg s = (Ok vs, s)
  | None => ∃ e, latest_filtered cfg s = (Raise e, s)
  end.
Proof.
  unfold latest_values, latest_filtered.
  pose proof (comprehension_reads
    (λ band, comprehension (channels cfg) (λ ch, read_latest band ch))
    (λ band, mapM (λ ch, latest_of s band ch) (channels cfg)) s
    (BANDS cfg).*1) as H.
  unfold_monad. cbn in *.
  destruct (mapM _ (BANDS cfg).*1) as [rows|]; cbn.
  - rewrite H; [done|]. intros band.
    apply (comprehension_reads _ (λ ch, latest_of s band ch)).
    intros ch. apply read_latest_reads.
  - destruct H as [e ->]; [|by exists e]. intros band.
    apply (comprehension_reads _ (λ ch, latest_of s band ch)).
    intros ch. apply read_latest_reads.
Qed.

Lemma latest_filtered_state s : snd (latest_filtered cfg s) = s.
Proof.
  pose proof (latest_filtered_reads s) as H.
  destruct (latest_values cfg s); [by rewrite H|]. by destruct H as [e ->].
Qed.

(** With every window in place and not empty, the read succeeds. *)
Lemma latest_values_is_Some s :
  windows_ok cfg s → (0 < buffer_size cfg)%nat →
  is_Some (latest_values cfg s).
Proof.
  intros (_ & _ & H3 & H4) Hpos. unfold latest_values.
  assert (is_Some (mapM (λ band, mapM (λ ch, latest_of s band ch)
                                   (channels cfg)) (BANDS cfg).*1))
    as [rows ->]; [|by eexists].
  apply mapM_is_Some, list.Forall_forall. intros band Hband.
  apply mapM_is_Some, list.Forall_forall. intros ch Hch.
  destruct (H3 _ Hband) as (d & Hd & Hk).
  destruct (Hk _ Hch) as [a Ha].
  destruct (H4 _ _ _ _ Hd Ha) as (arr & Harr & Hlen).
  unfold latest_of, filtered_window. rewrite Hd. cbn. rewrite Ha. cbn.
  rewrite Harr. cbn. apply getitem_is_Some.
  rewrite Hlen. destruct (buffer_size cfg); [lia|].
  rewrite py_index_last. by eexists.
Qed.
End Latest.

(** ** The save branch *)

Section Save.
Context (cfg : Config).

Lemma save_step_not_due env sample ts s :
  ¬ due cfg env s → save_step cfg env sample ts s = (Ok tt, s).
Proof.
  intros Hdue. unfold save_step. unfold_monad. cbn.
  by rewrite decide_False.
Qed.

Lemma save_step_sink_fail env sample ts s :
  due cfg env s → sink_ok env = false →
  save_step cfg env sample ts s = (Raise OSError, s).
Proof.
  intros Hdue Hsink. unfold save_step. unfold_monad. cbn.
  rewrite decide_True by done. by rewrite Hsink.
Qed.

Lemma latest_values_set_csvfile f s :
  latest_values cfg (set_csvfile f s) = latest_values cfg s.
Proof. done. Qed.

Lemma save_step_saved env sample ts s vs :
  due cfg env s → sink_ok env = true → latest_values cfg s = Some vs →
  save_step cfg env sample ts s
  = (Ok tt, saved_state cfg env (csv_row ts sample vs) s).
Proof.
  intros Hdue Hsink Hvs. unfold save_step. unfold_monad. cbn.
  rewrite decide_True by done. rewrite Hsink. cbn.
  unfold saved_state, csv_after_save, csv_row.
  destruct (decide (csvfile s = [])) as [He|Hne]; cbn.
  - pose proof (latest_filtered_reads cfg (set_csvfile [header cfg] s)) as H.
    rewrite latest_values_set_csvfile, Hvs in H. rewrite H. cbn.
    rewrite He. done.
  - pose proof (latest_filtered_reads cfg s) as H.
    rewrite Hvs in H. rewrite H. done.
Qed.

Lemma save_step_row_fail env sample ts s :
  due cfg env s → sink_ok env = true → latest_values cfg s = None →
  ∃ e, save_step cfg env sample ts s
       = (Raise e, if decide (csvfile s = [])
                   then set_csvfile [header cfg] s else s).
Proof.
  intros Hdue Hsink Hvs. unfold save_step. unfold_monad. cbn.
  rewrite decide_True by done. rewrite Hsink. cbn.
  destruct (decide (csvfile s = [])) as [He|Hne]; cbn.
  - pose proof (latest_filtered_reads cfg (set_csvfile [header cfg] s)) as H.
    rewrite latest_values_set_csvfile, Hvs in H. destruct H as [e ->].
    by exists e.
  - pose proof (latest_filtered_reads cfg s) as H.
    rewrite Hvs in H. destruct H as [e ->]. by exists e.
Qed.






(** The save branch touches the file, the timer and the printed output,
    nothing else, and the file only grows as [appended] allows.  (When
    building the row raises after the header was written, the file holds
    the header alone.) *)
Lemma save_step_effect env sample ts s :
  let s' := snd (save_step cfg env sample ts s) in
  heap s' = heap s ∧ raw_buffers s' = raw_buffers s
  ∧ filtered_buffers s' = filtered_buffers s
  ∧ raw_lines s' = raw_lines s ∧ filtered_lines s' = filtered_lines s
  ∧ (csvfile s' = csvfile s
     ∨ (csvfile s = [] ∧ csvfile s' = [header cfg])
     ∨ ∃ vs, csvfile s' = csv_after_save cfg (csvfile s) (csv_row ts sample vs)).
Proof.
  destruct (decide (due cfg env s)) as [Hdue|Hdue].
  2:{ rewrite save_step_not_due by done. cbn. naive_solver. }
  destruct (sink_ok env) eqn:Hsink.
  2:{ rewrite save_step_sink_fail by done. cbn. naive_solver. }
  destruct (latest_values cfg s) as [vs|] eqn:Hvs.
  - rewrite (save_step_saved _ _ _ _ vs) by done. cbn. naive_solver.
  - destruct (save_step_row_fail env sample ts s) as [e ->]; [done..|].
    cbn. destruct (decide (csvfile s = [])); cbn; naive_solver.
Qed.


Lemma keeps_windows_ok_save_step env sample ts :
  keeps (windows_ok cfg) (save_step cfg env sample ts).
Proof.
  apply keeps_of_effect with
    (F := λ s s', heap s' = heap s ∧ raw_buffers s' = raw_buffers s
                  ∧ filtered_buffers s' = filtered_buffers s).
  - intros s. by destruct (save_step_effect env sample ts s) as (?&?&?&_).
  - intros s s' (Hh & Hr & Hf) Hs. by eapply windows_ok_same.
Qed.
End Save.

(** ** One iteration and the loop *)

Section Loop.
Context (butter : nat → Qc → Qc → exn + (list pyfloat * list pyfloat)).
Context (cfg : Config).

Lemma tick_eq env s :
  tick butter cfg env s =
    match process_sample butter cfg (pulled env) s with
    | (Ok (sample, timestamp), s1) => save_step cfg env sample timestamp s1
    | (Raise e, s1) => (Raise e, s1)
    end.
Proof.
  unfold tick. unfold_monad.
  by destruct (process_sample butter cfg (pulled env) s) as [[[??]|?] ?].
Qed.

Lemma main_loop_cons env envs s :
  main_loop butter cfg (env :: envs) s =
    match tick butter cfg env s with
    | (Ok _, s1) => main_loop butter cfg envs s1
    | (Raise e, s1) => (Raise e, s1)
    end.
Proof. unfold main_loop. cbn [for_each]. by unfold_monad. Qed.

(** What [process_sample] returns is what [pull_sample] returned. *)
Lemma process_sample_pulled p s sample timestamp s1 :
  process_sample butter cfg p s = (Ok (sample, timestamp), s1) →
  p = inr (sample, timestamp).
Proof.
  unfold process_sample. unfold_monad.
  destruct p as [e|[smp t]]; [done|]. cbn.
  destruct (for_each (enumerate (channels cfg)) _ _) as [[[]|?] ?]; [|done].
  destruct (for_each (BANDS cfg) _ _) as [[[]|?] ?]; [|done].
  by intros [= -> -> ->].
Qed.

Lemma process_sample_stage p s :
  stage_rel s (snd (process_sample butter cfg p s)).
Proof.
  pose proof (stage_rel_process_sample butter cfg s p s (stage_rel_refl s)) as H.
  by destruct (process_sample butter cfg p s) as [[?|?] ?].
Qed.

Lemma keeps_windows_ok_raw_assign sample i ch :
  keeps (windows_ok cfg) (raw_assign sample i ch).
Proof.
  intros s Hs. rewrite raw_assign_eq.
  destruct (getitem sample i); [|done].
  destruct (raw_buffers s !! ch); [|done].
  by apply keeps_windows_ok_setitem.
Qed.

Lemma keeps_windows_ok_filt_assign band ch v :
  keeps (windows_ok cfg) (filt_assign band ch v).
Proof.
  intros s Hs. rewrite filt_assign_eq.
  destruct (filtered_buffers s !! band) as [d|]; [|done].
  destruct (d !! ch); [|done].
  by apply keeps_windows_ok_setitem.
Qed.

Lemma keeps_windows_ok_raw_publish i ch :
  keeps (windows_ok cfg) (raw_publish i ch).
Proof.
  apply keeps_of_effect with (F := λ s s', ∃ l, s' = set_raw_lines l s).
  - apply raw_publish_effect.
  - intros s s' [l Hl] Hs. rewrite Hl. by eapply windows_ok_same.
Qed.

Lemma keeps_windows_ok_filt_publish band i ch :
  keeps (windows_ok cfg) (filt_publish band i ch).
Proof.
  apply keeps_of_effect with (F := λ s s', ∃ l, s' = set_filtered_lines l s).
  - apply filt_publish_effect.
  - intros s s' [l Hl] Hs. rewrite Hl. by eapply windows_ok_same.
Qed.

Lemma keeps_windows_ok_filter_one x lo hi :
  keeps (windows_ok cfg) (filter_one butter cfg x lo hi).
Proof.
  apply keeps_of_effect with (F := λ s s', ∃ o, s' = set_stdout o s).
  - apply filter_one_effect.
  - intros s s' [l Hl] Hs. rewrite Hl. by eapply windows_ok_same.
Qed.

Lemma keeps_windows_ok_update_raw sample i ch :
  keeps (windows_ok cfg) (update_raw sample i ch).
Proof.
  unfold update_raw.
  apply keeps_bind; [apply keeps_windows_ok_raw_roll|]. intros [].
  apply keeps_bind; [apply keeps_windows_ok_raw_assign|]. intros [].
  apply keeps_windows_ok_raw_publish.
Qed.

Lemma keeps_windows_ok_update_filtered sample band lo hi i ch :
  keeps (windows_ok cfg) (update_filtered butter cfg sample band lo hi i ch).
Proof.
  unfold update_filtered.
  apply keeps_bind; [apply keeps_or_raise|]. intros x.
  apply keeps_bind; [apply keeps_windows_ok_filter_one|]. intros y.
  apply keeps_bind; [apply keeps_windows_ok_filt_roll|]. intros [].
  apply keeps_bind; [apply keeps_windows_ok_filt_assign|]. intros [].
  apply keeps_windows_ok_filt_publish.
Qed.

Lemma keeps_windows_ok_process_sample p :
  keeps (windows_ok cfg) (process_sample butter cfg p).
Proof.
  unfold process_sample.
  apply keeps_bind.
  { destruct p; [apply keeps_raise|apply keeps_ret]. }
  intros [sample timestamp].
  apply keeps_bind.
  { apply keeps_modify. intros s Hs. by eapply windows_ok_same. }
  intros _. apply keeps_bind.
  { apply keeps_for_each. intros [i ch] _. apply keeps_windows_ok_update_raw. }
  intros _. apply keeps_bind.
  { apply keeps_for_each. intros [band [lo hi]] _.
    apply keeps_for_each. intros [i ch] _.
    apply keeps_windows_ok_update_filtered. }
  intros _. apply keeps_ret.
Qed.

Lemma keeps_windows_ok_tick env : keeps (windows_ok cfg) (tick butter cfg env).
Proof.
  unfold tick. apply keeps_bind; [apply keeps_windows_ok_process_sample|].
  intros [sample timestamp]. apply keeps_windows_ok_save_step.
Qed.

Lemma keeps_windows_ok_main_loop envs :
  keeps (windows_ok cfg) (main_loop butter cfg envs).
Proof. apply keeps_for_each. intros env _. apply keeps_windows_ok_tick. Qed.





(** An exception in one iteration ends the loop there: no later iteration
    runs. *)
Lemma main_loop_raise env envs s e s1 :
  tick butter cfg env s = (Raise e, s1) →
  main_loop butter cfg (env :: envs) s = (Raise e, s1).
Proof. intros H. by rewrite main_loop_cons, H. Qed.
End Loop.

(** ** Start-up builds the windows *)

Lemma alloc_rel_refl s : alloc_rel s s.
Proof. done. Qed.

Lemma alloc_rel_trans s1 s2 s3 :
  alloc_rel s1 s2 → alloc_rel s2 s3 → alloc_rel s1 s3.
Proof.
  intros (Hp1 & Hr1 & Hf1) (Hp2 & Hr2 & Hf2).
  split_and!; [by etrans|congruence..].
Qed.

Lemma dict_comprehension_alloc {V} (G : V → State → Prop)
    (f : string → M V) :
  (∀ v s s', alloc_rel s s' → G v s → G v s') →
  (∀ k s, alloc_rel s (snd (f k s))
          ∧ match fst (f k s) with Ok v => G v (snd (f k s)) | Raise _ => True end) →
  ∀ keys acc s, (∀ k v, acc !! k = Some v → G v s) →
    alloc_rel s (snd (dict_comprehension acc keys f s))
    ∧ match fst (dict_comprehension acc keys f s) with
      | Ok d =>
          (∀ k, k ∈ keys ∨ is_Some (acc !! k) → is_Some (d !! k))
          ∧ ∀ k v, d !! k = Some v → G v (snd (dict_comprehension acc keys f s))
      | Raise _ => True
      end.
Proof.
  intros Hmono Hf keys. induction keys as [|k keys IH]; intros acc s Hacc.
  - cbn. split; [done|]. split; [|done].
    intros k [Hk|Hk]; [by apply elem_of_nil in Hk|done].
  - cbn [dict_comprehension]. unfold_monad.
    destruct (Hf k s) as [Hrel Hv].
    destruct (f k s) as [[v|e] s1]; cbn in *; [|done].
    destruct (IH (<[k := v]> acc) s1) as [Hrel' Hd].
    { intros k' v'. rewrite lookup_insert. case_decide; intros; simplify_eq.
      - done.
      - eapply Hmono; [done|]. by eapply Hacc. }
    split; [by eapply alloc_rel_trans|].
    destruct (dict_comprehension (<[k := v]> acc) keys f s1) as [[d|e] s2];
      cbn in *; [|done].
    destruct Hd as [Hdom Hgood]. split; [|done].
    intros k' Hk'. apply Hdom.
    rewrite lookup_insert_is_Some. destruct (decide (k = k')); [by right; left|].
    destruct Hk' as [Hk'|Hk'].
    + apply elem_of_cons in Hk' as [?|?]; [done|by left].
    + right. by right.
Qed.

Section Startup.
Context (cfg : Config).

Lemma sized_at_alloc_rel a s s' :
  alloc_rel s s' → sized_at cfg s a → sized_at cfg s' a.
Proof. intros (Hp & _). by apply sized_at_prefix. Qed.

Lemma channel_dict_ok_alloc_rel d s s' :
  alloc_rel s s' → channel_dict_ok cfg d s → channel_dict_ok cfg d s'.
Proof.
  intros Hrel [H1 H2]. split; [done|].
  intros ch a Ha. eapply sized_at_alloc_rel; [done|]. by eapply H2.
Qed.

Lemma alloc_full_spec s :
  alloc_rel s (snd (alloc (np_full (buffer_size cfg) NaN) s))
  ∧ match fst (alloc (np_full (buffer_size cfg) NaN) s) with
    | Ok a => sized_at cfg (snd (alloc (np_full (buffer_size cfg) NaN) s)) a
    | Raise _ => True
    end.
Proof.
  cbn. split.
  - split_and!; [by apply prefix_app_r|done..].
  - apply sized_at_fresh, np_full_length.
Qed.

(** The comprehension [{channel: np.full(buffer_size, np.nan) for channel
    in channels}]. *)
Lemma channel_dict_spec s :
  let m := dict_comprehension ∅ (channels cfg)
             (λ _, alloc (np_full (buffer_size cfg) NaN)) in
  alloc_rel s (snd (m s))
  ∧ match fst (m s) with
    | Ok d => channel_dict_ok cfg d (snd (m s))
    | Raise _ => True
    end.
Proof.
  cbn zeta.
  destruct (dict_comprehension_alloc (λ a s, sized_at cfg s a)
    (λ _, alloc (np_full (buffer_size cfg) NaN))
    (λ a s s', sized_at_alloc_rel a s s') (λ _, alloc_full_spec)
    (channels cfg) ∅ s) as [Hrel Hd]; [done|].
  split; [done|].
  destruct (fst _) as [d|e]; [|done]. destruct Hd as [Hdom Hgood].
  split; [|done]. intros ch Hch. apply Hdom. by left.
Qed.

(** The nested comprehension that builds [filtered_buffers]. *)
Lemma band_dict_spec s :
  let m := dict_comprehension ∅ (BANDS cfg).*1
             (λ _, dict_comprehension ∅ (channels cfg)
                     (λ _, alloc (np_full (buffer_size cfg) NaN))) in
  alloc_rel s (snd (m s))
  ∧ match fst (m s) with
    | Ok fd =>
        (∀ band, band ∈ (BANDS cfg).*1 → is_Some (fd !! band))
        ∧ ∀ band d, fd !! band = Some d → channel_dict_ok cfg d (snd (m s))
    | Raise _ => True
    end.
Proof.
  cbn zeta.
  destruct (dict_comprehension_alloc (channel_dict_ok cfg)
    (λ _, dict_comprehension ∅ (channels cfg)
            (λ _, alloc (np_full (buffer_size cfg) NaN)))
    (λ d s s', channel_dict_ok_alloc_rel d s s') (λ _, channel_dict_spec)
    (BANDS cfg).*1 ∅ s) as [Hrel Hd]; [done|].
  split; [done|].
  destruct (fst _) as [d|e]; [|done]. destruct Hd as [Hdom Hgood].
  split; [|done]. intros ch Hch. apply Hdom. by left.
Qed.
End Startup.

Lemma keeps_dict_comprehension {V} I (f : string → M V) keys acc :
  (∀ k, keeps I (f k)) → keeps I (dict_comprehension acc keys f).
Proof.
  intros Hf. revert acc. induction keys as [|k keys IH]; intros acc.
  - apply keeps_ret.
  - cbn [dict_comprehension]. apply keeps_bind; [done|]. intros v. apply IH.
Qed.

Section StartupOk.
Context (cfg : Config).

Lemma keeps_windows_ok_alloc arr : keeps (windows_ok cfg) (alloc arr).
Proof.
  intros s Hs. cbn. revert Hs. apply windows_ok_frame; [done..|].
  intros a. apply sized_at_alloc.
Qed.

Lemma keeps_windows_ok_blind f :
  (∀ s, heap (f s) = heap s) →
  (∀ s, raw_buffers (f s) = raw_buffers s) →
  (∀ s, filtered_buffers (f s) = filtered_buffers s) →
  keeps (windows_ok cfg) (modify f).
Proof.
  intros Hh Hr Hf. apply keeps_modify. intros s. by apply windows_ok_same.
Qed.

(** After lines 41-42 every window exists and has the configured size; the
    rest of the start-up does not touch them. *)
Lemma startup_windows_ok stream_found t0 :
  triple (λ _, True) (startup cfg stream_found t0)
    (λ _, windows_ok cfg) (λ _, True).
Proof.
  unfold startup.
  eapply triple_bind with (Q := λ _ _, True).
  { intros s _. by destruct stream_found. }
  intros _.
  eapply triple_bind with (Q := λ raw s, channel_dict_ok cfg raw s).
  { intros s _. destruct (channel_dict_spec cfg s) as [_ H]. cbn zeta in H.
    by destruct (dict_comprehension _ _ _ s) as [[d|e] s1]. }
  intros raw.
  eapply triple_bind with
    (Q := λ _ s, channel_dict_ok cfg (raw_buffers s) s).
  { by apply triple_modify. }
  intros _.
  eapply triple_bind with
    (Q := λ fd s, channel_dict_ok cfg (raw_buffers s) s
                  ∧ (∀ band, band ∈ (BANDS cfg).*1 → is_Some (fd !! band))
                  ∧ ∀ band d, fd !! band = Some d → channel_dict_ok cfg d s).
  { intros s Hs. destruct (band_dict_spec cfg s) as [Hrel H]. cbn zeta in *.
    destruct (dict_comprehension _ _ _ s) as [[fd|e] s1]; cbn in *; [|done].
    split; [|done].
    destruct Hrel as (Hp & Hr & Hf). rewrite Hr.
    eapply channel_dict_ok_alloc_rel; [|done]. done. }
  intros fd.
  eapply triple_bind with (Q := λ _, windows_ok cfg).
  { apply triple_modify. intros s ([H1 H2] & H3 & H4).
    split_and!; cbn.
    - done.
    - done.
    - intros band Hband. destruct (H3 _ Hband) as [d Hd].
      exists d. split; [done|]. by apply (H4 _ _ Hd).
    - intros band d ch a Hd Ha. by eapply (H4 _ _ Hd). }
  intros _.
  apply triple_weaken with (P' := windows_ok cfg)
    (Q' := λ _, windows_ok cfg) (E' := windows_ok cfg); [|done..].
  apply keeps_bind.
  { apply keeps_comprehension. intros i.
    apply keeps_bind; [apply keeps_or_raise|]. intros _.
    apply keeps_windows_ok_alloc. }
  intros rl. apply keeps_bind; [by apply keeps_windows_ok_blind|]. intros _.
  apply keeps_bind.
  { apply keeps_dict_comprehension. intros k.
    apply keeps_comprehension. intros i.
    apply keeps_bind; [apply keeps_or_raise|]. intros _.
    apply keeps_windows_ok_alloc. }
  intros fl. apply keeps_bind; [by apply keeps_windows_ok_blind|]. intros _.
  apply keeps_bind.
  { apply keeps_for_each. intros i _.
    apply keeps_bind; [apply keeps_or_raise|]. intros _. apply keeps_ret. }
  intros _. apply keeps_bind.
  { apply keeps_for_each. intros [i b] _.
    apply keeps_for_each. intros j _.
    apply keeps_bind; [apply keeps_or_raise|]. intros _.
    apply keeps_bind; [apply keeps_or_raise|]. intros _. apply keeps_ret. }
  intros _. apply keeps_bind; [by apply keeps_windows_ok_blind|]. intros _.
  by apply keeps_windows_ok_blind.
Qed.
End StartupOk.

(** ** Rolling windows *)



(** The sentinel is a float like any other: a reading that is itself [NaN]
    sits in the window as a pushed value and cannot be told from the initial
    fill by looking at it. *)
Remark pushed_nan_looks_like_fill :
  window_pushes (np_full 1 NaN) [NaN] = Some (np_full 1 NaN).
Proof. done. Qed.

(** ** The per-sample filter call *)


Lemma comprehension_map {A B} (f : A → M B) (g : A → B) l :
  (∀ x s, fst (f x s) = Ok (g x)) →
  ∀ s, fst (comprehension l f s) = Ok (g <$> l).
Proof.
  intros Hf. induction l as [|x l IH]; intros s; [done|].
  cbn [comprehension]. unfold_monad. specialize (Hf x s).
  destruct (f x s) as [[y|e] s1]; cbn in Hf; simplify_eq.
  specialize (IH s1).
  destruct (comprehension l f s1) as [[ys|?] ?]; cbn in IH; by simplify_eq.
Qed.

Section FilterTheorems.
Context (butter : nat → Qc → Qc → exn + (list pyfloat * list pyfloat)).

Lemma bandpass_filter_value data lo hi fs ord s1 s2 :
  fst (bandpass_filter butter data lo hi fs ord s1)
  = fst (bandpass_filter butter data lo hi fs ord s2).
Proof.
  destruct (bandpass_filter_state butter data lo hi fs ord) as [r Hr].
  destruct (Hr s1) as [o1 ->], (Hr s2) as [o2 ->]. done.
Qed.

Lemma filter_one_scaled cfg x lo hi b0 bs a s :
  fs cfg ≠ 0%Qc →
  butter 4 (lo / (Q2Qc (1 # 2) * fs cfg))%Qc (hi / (Q2Qc (1 # 2) * fs cfg))%Qc
    = inr (b0 :: bs, a) →
  fst (filter_one butter cfg x lo hi s) = Ok (fmul (fdiv b0 (hd fzero a)) x).
Proof.
  intros Hfs Hb. unfold filter_one. unfold_monad.
  rewrite bandpass_filter_eq, Hb by done. by rewrite lfilter_single.
Qed.

(** C10.  When the design succeeds with numerator [b0 :: bs] and a
    denominator that starts with 1, the call of line 89 on the one-element
    list [[x]] returns [[b0 * x]]; its value is the same from every state,
    and the only thing it changes is the printed output. *)
Theorem per_sample_filter_is_scaling x lo hi fs ord b0 bs as_ s :
  fs ≠ 0%Qc →
  butter ord (lo / (Q2Qc (1 # 2) * fs))%Qc (hi / (Q2Qc (1 # 2) * fs))%Qc
    = inr (b0 :: bs, fone :: as_) →
  fst (bandpass_filter butter [x] lo hi fs ord s) = Ok [fmul b0 x]
  ∧ (∀ s', fst (bandpass_filter butter [x] lo hi fs ord s')
           = fst (bandpass_filter butter [x] lo hi fs ord s))
  ∧ ∃ out, snd (bandpass_filter butter [x] lo hi fs ord s) = set_stdout out s.
Proof.
  intros Hfs Hb. split_and!.
  - rewrite bandpass_filter_eq, Hb by done. cbn [fst].
    by rewrite lfilter_single, fdiv_one_r.
  - intros s'. apply bandpass_filter_value.
  - apply bandpass_filter_effect.
Qed.


(** C1 (amended).  The filter keeps nothing between calls.  When the design
    succeeds with numerator [b0 :: bs] and denominator [a], a stream fed
    one sample per iteration comes out as each sample scaled by
    [b0 / a[0]]; every call starts from a zero delay line; and the output
    at step [n] is the same for any two streams that agree at step [n],
    whatever came before. *)
Theorem filter_has_no_memory cfg xs lo hi b0 bs a s :
  fs cfg ≠ 0%Qc →
  butter 4 (lo / (Q2Qc (1 # 2) * fs cfg))%Qc (hi / (Q2Qc (1 # 2) * fs cfg))%Qc
    = inr (b0 :: bs, a) →
  fst (filter_stream butter cfg xs lo hi s)
  = Ok ((λ x, fmul (fdiv b0 (hd fzero a)) x) <$> xs)
  ∧ (∀ x, [fmul (fdiv b0 (hd fzero a)) x]
          = fst (lfilter_zi (b0 :: bs) a [x]
                   (replicate (length (b0 :: bs) `max` length a - 1) fzero)))
  ∧ ∀ xs' s' n,
      xs !! n = xs' !! n →
      stream_outputs (fst (filter_stream butter cfg xs lo hi s)) !! n
      = stream_outputs (fst (filter_stream butter cfg xs' lo hi s')) !! n.
Proof.
  intros Hfs Hb.
  assert (∀ ys t, fst (filter_stream butter cfg ys lo hi t)
                  = Ok ((λ x, fmul (fdiv b0 (hd fzero a)) x) <$> ys)) as Hs.
  { intros ys t. apply comprehension_map. intros x t'.
    by eapply filter_one_scaled. }
  split_and!.
  - apply Hs.
  - intros x. exact (eq_sym (lfilter_single b0 bs a x)).
  - intros xs' s' n Hn. rewrite !Hs. cbn [stream_outputs].
    by rewrite !list_lookup_fmap, Hn.
Qed.

(** C3 (amended).  [bandpass_filter] checks nothing itself.  For a non-zero
    sample rate it hands [lowcut / (fs/2)] and [highcut / (fs/2)] to the
    design routine at every call: it raises exactly when the routine
    raises, with the routine's exception and an unchanged state, and
    otherwise filters with the coefficients it got. *)
Theorem band_errors_come_from_butter data lo hi fs ord s :
  fs ≠ 0%Qc →
  (∀ e, butter ord (lo / (Q2Qc (1 # 2) * fs))%Qc (hi / (Q2Qc (1 # 2) * fs))%Qc
        = inl e →
        bandpass_filter butter data lo hi fs ord s = (Raise e, s))
  ∧ (∀ b a, butter ord (lo / (Q2Qc (1 # 2) * fs))%Qc
                       (hi / (Q2Qc (1 # 2) * fs))%Qc = inr (b, a) →
            fst (bandpass_filter butter data lo hi fs ord s)
            = Ok (lfilter b a data)).
Proof.
  intros Hfs. split.
  - intros e He. by rewrite bandpass_filter_eq, He.
  - intros b a Hb. by rewrite bandpass_filter_eq, Hb.
Qed.
End FilterTheorems.

(** ** The filter on concrete inputs *)

Lemma demo_butter_theta :
  demo_butter 4 (Qc_of_Z 4 / (Q2Qc (1 # 2) * Qc_of_Z 256))%Qc
                (Qc_of_Z 8 / (Q2Qc (1 # 2) * Qc_of_Z 256))%Qc
  = inr (demo_theta_b, demo_theta_a).
Proof. by_eval. Defined.

Lemma rate_256_nonzero : Qc_of_Z 256 ≠ 0%Qc.
Proof. by_eval. Defined.

Lemma per_sample_filter_is_scaling_witness :
  fst (bandpass_filter demo_butter [fin 2] (Qc_of_Z 4) (Qc_of_Z 8)
         (Qc_of_Z 256) 4 (empty_state []))
  = Ok [fmul (Fin (Q2Qc (1 # 64))) (fin 2)].
Proof.
  exact (proj1 (per_sample_filter_is_scaling demo_butter (fin 2) (Qc_of_Z 4)
                  (Qc_of_Z 8) (Qc_of_Z 256) 4 _ _ _ (empty_state [])
                  rate_256_nonzero demo_butter_theta)).
Defined.

Lemma muse_rate_nonzero : fs muse_config ≠ 0%Qc.
Proof. exact rate_256_nonzero. Defined.

Lemma filter_has_no_memory_witness :
  fst (filter_stream demo_butter muse_config [fin 1; fin 5] (Qc_of_Z 4)
         (Qc_of_Z 8) (empty_state []))
  = Ok ((λ x, fmul (fdiv (Fin (Q2Qc (1 # 64))) (hd fzero demo_theta_a)) x)
          <$> [fin 1; fin 5]).
Proof.
  exact (proj1 (filter_has_no_memory demo_butter muse_config [fin 1; fin 5]
                  (Qc_of_Z 4) (Qc_of_Z 8) _ _ _ (empty_state [])
                  muse_rate_nonzero demo_butter_theta)).
Defined.

(** C1, as the specification words it, fails.  With the coefficients
    [demo_butter] gives for the 4-8 Hz band at rate 256, a filter that kept
    its delay line would answer the stream [1, 1] with [1/64, 3/128]; the
    script answers [1/64, 1/64].  Its second output is the same after a
    first sample of 5, while the stateful filter's is not. *)
Lemma filter_state_not_kept :
  demo_butter 4 (Qc_of_Z 4 / (Q2Qc (1 # 2) * fs muse_config))%Qc
                (Qc_of_Z 8 / (Q2Qc (1 # 2) * fs muse_config))%Qc
  = inr (demo_theta_b, demo_theta_a)
  ∧ script_stream [fin 1; fin 1] = [Fin (Q2Qc (1 # 64)); Fin (Q2Qc (1 # 64))]
  ∧ stateful_stream [fin 1; fin 1]
    = [Fin (Q2Qc (1 # 64)); Fin (Q2Qc (3 # 128))]
  ∧ script_stream [fin 1; fin 1] ≠ stateful_stream [fin 1; fin 1]
  ∧ script_stream [fin 5; fin 1] !! 1%nat = script_stream [fin 1; fin 1] !! 1%nat
  ∧ stateful_stream [fin 5; fin 1] !! 1%nat
    ≠ stateful_stream [fin 1; fin 1] !! 1%nat.
Proof. split_and!; by_eval. Qed.

(** C3, as the specification words it, fails.  With the bands (10, 5) and
    (4, 130) at rate 256 the start-up completes: nothing is checked before
    the loop.  With a design routine that accepts every cutoff the script
    filters a sample for the band (10, 5) without raising.  With one that
    rejects such cutoffs, as SciPy's does, the exception is a [ValueError]
    raised inside the first loop iteration, after the sample was shifted
    into the raw window. *)
Lemma no_construction_time_check :
  fst (startup invalid_bands_config true 0%Qc (empty_state [])) = Ok tt
  ∧ fst (bandpass_filter lenient_butter [fin 1] (Qc_of_Z 10) (Qc_of_Z 5)
           (Qc_of_Z 256) 4 invalid_bands_start) = Ok [fin 1]
  ∧ fst (tick demo_butter invalid_bands_config first_env invalid_bands_start)
    = Raise ValueError
  ∧ (arr ← raw_window
             (snd (tick demo_butter invalid_bands_config first_env
                     invalid_bands_start)) "Channel 1";
     getitem arr (-1)) = Some (fin 1).
Proof. split_and!; by_eval. Qed.

Lemma band_errors_come_from_butter_witness :
  (∀ e, demo_butter 4 (Qc_of_Z 10 / (Q2Qc (1 # 2) * Qc_of_Z 256))%Qc
                      (Qc_of_Z 5 / (Q2Qc (1 # 2) * Qc_of_Z 256))%Qc = inl e →
        bandpass_filter demo_butter [fin 1] (Qc_of_Z 10) (Qc_of_Z 5)
          (Qc_of_Z 256) 4 (empty_state []) = (Raise e, empty_state []))
  ∧ (∀ b a, demo_butter 4 (Qc_of_Z 10 / (Q2Qc (1 # 2) * Qc_of_Z 256))%Qc
                          (Qc_of_Z 5 / (Q2Qc (1 # 2) * Qc_of_Z 256))%Qc
            = inr (b, a) →
            fst (bandpass_filter demo_butter [fin 1] (Qc_of_Z 10) (Qc_of_Z 5)
                   (Qc_of_Z 256) 4 (empty_state [])) = Ok (lfilter b a [fin 1])).
Proof.
  exact (band_errors_come_from_butter demo_butter [fin 1] (Qc_of_Z 10)
           (Qc_of_Z 5) (Qc_of_Z 256) 4 (empty_state []) rate_256_nonzero).
Defined.

(** ** Window lengths *)

(** C6.  If the start-up completes, then after any number of loop
    iterations, however the loop ends, every raw window and every
    (band, channel) window exists and has exactly [buffer_size] elements.
    A push drops the oldest element and appends the new one, so it keeps the
    length of the array it is applied to.  In the script's own configuration
    the capacity is the sample rate times 5 seconds. *)
Theorem window_lengths_invariant
    (butter : nat → Qc → Qc → exn + (list pyfloat * list pyfloat))
    (cfg : Config) (stream_found : bool) (t0 : Qc) (csv0 : list (list cell))
    (envs : list TickEnv) :
  fst (startup cfg stream_found t0 (empty_state csv0)) = Ok tt →
  let s0 := snd (startup cfg stream_found t0 (empty_state csv0)) in
  let s := snd (main_loop butter cfg envs s0) in
  (∀ ch, ch ∈ channels cfg →
     ∃ arr, raw_window s ch = Some arr ∧ length arr = buffer_size cfg)
  ∧ (∀ band ch, band ∈ (BANDS cfg).*1 → ch ∈ channels cfg →
       ∃ arr, filtered_window s band ch = Some arr
              ∧ length arr = buffer_size cfg)
  ∧ (∀ (x : pyfloat) buf v, window_push (x :: buf) v = Some (buf ++ [v]))
  ∧ (∀ (buf : list pyfloat) v buf',
       window_push buf v = Some buf' → length buf' = length buf)
  ∧ Qc_of_Z (Z.of_nat (buffer_size muse_config))
    = (fs muse_config * Qc_of_Z 5)%Qc.
Proof.
  intros Hstart s0 s.
  assert (windows_ok cfg s0) as Hs0.
  { pose proof (startup_windows_ok cfg stream_found t0 (empty_state csv0) I) as H.
    subst s0. destruct (startup cfg stream_found t0 (empty_state csv0))
      as [[[]|e] s0]; [done|discriminate]. }
  assert (windows_ok cfg s) as (H1 & H2 & H3 & H4).
  { pose proof (keeps_windows_ok_main_loop butter cfg envs s0 Hs0) as H.
    subst s. by destruct (main_loop butter cfg envs s0) as [[[]|e] s1]. }
  split_and!.
  - intros ch Hch. destruct (H1 _ Hch) as [a Ha].
    destruct (H2 _ _ Ha) as (arr & Harr & Hlen).
    exists arr. unfold raw_window. rewrite Ha. done.
  - intros band ch Hband Hch. destruct (H3 _ Hband) as (d & Hd & Hk).
    destruct (Hk _ Hch) as [a Ha].
    destruct (H4 _ _ _ _ Hd Ha) as (arr & Harr & Hlen).
    exists arr. unfold filtered_window. rewrite Hd. cbn. rewrite Ha. done.
  - intros x buf v. apply window_push_cons.
  - intros buf v buf'. apply window_push_length.
  - by_eval.
Qed.

Lemma window_lengths_invariant_witness :
  ∃ arr,
    raw_window
      (snd (main_loop demo_butter muse_config [first_env]
              (snd (startup muse_config true 0%Qc (empty_state [])))))
      "Channel 1" = Some arr
    ∧ length arr = buffer_size muse_config.
Proof.
  refine (proj1 (window_lengths_invariant demo_butter muse_config true 0%Qc []
                   [first_env] _) "Channel 1" _).
  - vm_compute. reflexivity.
  - by_eval.
Defined.

(** ** Published arrays *)

Section Published.
Context (butter : nat → Qc → Qc → exn + (list pyfloat * list pyfloat)).
Context (cfg : Config).



Lemma filt_publish_shares band i ch s s' :
  filt_publish band i ch s = (Ok tt, s') →
  ∃ ls ls' d k a, filtered_lines s !! band = Some ls
         ∧ py_index (length ls) i = Some k
         ∧ filtered_lines s' !! band = Some ls' ∧ ls' !! k = Some a
         ∧ filtered_buffers s' !! band = Some d ∧ d !! ch = Some a
         ∧ heap s' = heap s.
Proof.
  rewrite filt_publish_eq.
  destruct (filtered_lines s !! band) as [ls|] eqn:Hls; [|done].
  destruct (py_index (length ls) i) as [k|] eqn:Hk; [|done].
  destruct (filtered_buffers s !! band) as [d|] eqn:Hd; [|done].
  destruct (d !! ch) as [a|] eqn:Ha; [|done]. cbn zeta.
  destruct (py_index n_axes (i + 4)); [|done]. intros [= <-].
  exists ls, (<[k := a]> ls), d, k, a. cbn.
  rewrite lookup_insert_eq. split_and!; [done..| |done|done|done].
  apply list_lookup_insert_eq. by eapply py_index_lt.
Qed.



End Published.

(** ** The save timer *)

Lemma triple_any {A} (m : M A) : triple (λ _, True) m (λ _ _, True) (λ _, True).
Proof. intros s _. by destruct (m s) as [[?|?] ?]. Qed.

Lemma pair_of_fst {A B} (p : A * B) a : fst p = a → p = (a, snd p).
Proof. intros <-. by destruct p. Qed.

Section Timer.
Context (cfg : Config).

(** Line 66: the timer starts at the clock reading taken during start-up. *)
Lemma startup_timer stream_found t0 s :
  fst (startup cfg stream_found t0 s) = Ok tt →
  last_save_time (snd (startup cfg stream_found t0 s)) = t0.
Proof.
  assert (triple (λ _, True) (startup cfg stream_found t0)
            (λ _ s', last_save_time s' = t0) (λ _, True)) as H.
  { unfold startup.
    do 11 (eapply triple_bind; [apply triple_any|]; intros ?).
    eapply triple_bind with (Q := λ _ s', last_save_time s' = t0).
    - by apply triple_modify.
    - intros _. by apply triple_modify. }
  intros Hok. specialize (H s I).
  destruct (startup cfg stream_found t0 s) as [[[]|e] s']; [done|discriminate].
Qed.
End Timer.

Lemma muse_start_ok :
  fst (startup muse_config true 0%Qc (empty_state [])) = Ok tt.
Proof. vm_compute. reflexivity. Qed.

Lemma muse_start_windows_ok : windows_ok muse_config muse_start.
Proof.
  pose proof (startup_windows_ok muse_config true 0%Qc (empty_state []) I) as H.
  pose proof muse_start_ok as Hok. unfold muse_start.
  destruct (startup muse_config true 0%Qc (empty_state [])) as [[[]|e] s'];
    [done|discriminate].
Qed.

(** With the timer started at 0 and the interval at 20 seconds, attempts at
    0, 5, 19, 20 and 25 seconds save once, at 20. *)
Lemma gate_attempts_trace :
  flush_trace demo_butter muse_config gate_attempts muse_start
  = [false; false; false; true; false].
Proof. by_eval. Qed.

(** C2, as the specification words it, fails twice.  There is no bootstrap
    save: the timer starts at the start-up clock reading, so with that
    reading at 0 the attempts at 0, 5, 19, 20, 25 save at 20 only, not at 0.
    And a save sets the timer to a second clock reading taken after the
    write, not to the compared one: compared at 20 and read again at 21, the
    timer becomes 21. *)
Lemma save_gate_no_bootstrap :
  flush_trace demo_butter muse_config gate_attempts muse_start
  ≠ [true; false; false; true; false]
  ∧ last_save_time muse_start = 0%Qc
  ∧ last_save_time
      (snd (tick demo_butter muse_config due_env muse_start))
    = Qc_of_Z 21.
Proof.
  split_and!.
  - by rewrite gate_attempts_trace.
  - by_eval.
  - by_eval.
Qed.

Section Gate.
Context (butter : nat → Qc → Qc → exn + (list pyfloat * list pyfloat)).
Context (cfg : Config).

Lemma process_sample_keeps env s sample timestamp s1 :
  process_sample butter cfg (pulled env) s = (Ok (sample, timestamp), s1) →
  last_save_time s1 = last_save_time s ∧ csvfile s1 = csvfile s
  ∧ (due cfg env s1 ↔ due cfg env s).
Proof.
  intros Hp. pose proof (process_sample_stage butter cfg (pulled env) s) as H.
  rewrite Hp in H. destruct H as (_ & Hc & Ht). unfold due. cbn in *.
  by rewrite Ht.
Qed.

(** C2 (amended).  Let lines 71-95 of an iteration complete and the file be
    writable.  The timer and the file are then as the previous iteration
    left them, and the iteration saves exactly when
    [t_check - last_save_time >= save_interval]: if not, it ends in the
    state lines 71-95 reached; if so, it appends the row and sets the timer
    to [t_reset], the clock reading taken after the write.  The timer
    starts at the start-up clock reading: with that reading at 0 and the
    interval at 20, attempts at 0, 5, 19, 20, 25 save at 20 only. *)
Theorem save_gate env s sample timestamp s1 :
  process_sample butter cfg (pulled env) s = (Ok (sample, timestamp), s1) →
  windows_ok cfg s → (0 < buffer_size cfg)%nat → sink_ok env = true →
  (last_save_time s1 = last_save_time s ∧ csvfile s1 = csvfile s)
  ∧ (¬ due cfg env s → tick butter cfg env s = (Ok tt, s1))
  ∧ (due cfg env s →
       ∃ s2 vs, tick butter cfg env s = (Ok tt, s2)
                ∧ last_save_time s2 = t_reset env
                ∧ latest_values cfg s1 = Some vs
                ∧ csvfile s2 = csv_after_save cfg (csvfile s)
                                 (csv_row timestamp sample vs))
  ∧ (∀ stream_found t0 s_init,
       fst (startup cfg stream_found t0 s_init) = Ok tt →
       last_save_time (snd (startup cfg stream_found t0 s_init)) = t0)
  ∧ flush_trace demo_butter muse_config gate_attempts muse_start
    = [false; false; false; true; false].
Proof.
  intros Hp Hok Hpos Hsink.
  destruct (process_sample_keeps _ _ _ _ _ Hp) as (Ht & Hc & Hdue).
  assert (windows_ok cfg s1) as Hok1.
  { pose proof (keeps_windows_ok_process_sample butter cfg (pulled env) s Hok)
      as H. by rewrite Hp in H. }
  split_and!; [done|done| | | |].
  - intros Hnd. rewrite tick_eq, Hp. apply save_step_not_due. by rewrite Hdue.
  - intros Hd.
    destruct (latest_values_is_Some cfg s1 Hok1 Hpos) as [vs Hvs].
    exists (saved_state cfg env (csv_row timestamp sample vs) s1), vs.
    split_and!; [|done|done|by rewrite <- Hc].
    rewrite tick_eq, Hp. apply save_step_saved; [by apply Hdue|done..].
  - intros found t0 s_init. apply startup_timer.
  - apply gate_attempts_trace.
Qed.

(** C4 (amended).  Let lines 71-95 of an iteration complete and the save be
    due.  If the file cannot be opened, the iteration raises [OSError] in
    the state lines 71-95 reached: the timer is not advanced and nothing is
    written.  The exception ends the loop, so no later iteration runs, and
    it passes through the [except KeyboardInterrupt] clause. *)
Theorem sink_failure_propagates env envs handler s sample timestamp s1 :
  process_sample butter cfg (pulled env) s = (Ok (sample, timestamp), s1) →
  due cfg env s → sink_ok env = false →
  tick butter cfg env s = (Raise OSError, s1)
  ∧ last_save_time s1 = last_save_time s
  ∧ csvfile s1 = csvfile s
  ∧ main_loop butter cfg (env :: envs) s = (Raise OSError, s1)
  ∧ try_except (main_loop butter cfg (env :: envs)) KeyboardInterrupt handler s
    = (Raise OSError, s1).
Proof.
  intros Hp Hd Hsink.
  destruct (process_sample_keeps _ _ _ _ _ Hp) as (Ht & Hc & Hdue).
  assert (tick butter cfg env s = (Raise OSError, s1)) as Htick.
  { rewrite tick_eq, Hp. apply save_step_sink_fail; [by apply Hdue|done]. }
  split_and!; [done..| |].
  - by apply main_loop_raise.
  - unfold try_except. by rewrite (main_loop_raise _ _ _ _ _ _ _ Htick).
Qed.
End Gate.

Lemma save_gate_witness :
  ∃ s2 vs,
    tick demo_butter muse_config due_env muse_start = (Ok tt, s2)
    ∧ last_save_time s2 = t_reset due_env
    ∧ latest_values muse_config
        (snd (process_sample demo_butter muse_config (pulled due_env)
                muse_start))
      = Some vs
    ∧ csvfile s2 = csv_after_save muse_config (csvfile muse_start)
                     (csv_row (fin 100) (fin <$> [1; 2; 3; 4]) vs).
Proof.
  refine (proj1 (proj2 (proj2 (save_gate demo_butter muse_config due_env
    muse_start (fin <$> [1; 2; 3; 4]) (fin 100)
    (snd (process_sample demo_butter muse_config (pulled due_env) muse_start))
    _ muse_start_windows_ok _ _))) _).
  - apply pair_of_fst. vm_compute. reflexivity.
  - vm_compute. lia.
  - reflexivity.
  - by_eval.
Defined.

(** C4, as the specification words it, fails: a failed save ends the loop.
    The first of two iterations is due at 20 seconds and cannot open the
    file; the run raises [OSError] out of the loop and out of the script, and
    ends exactly where the first iteration ended, so the second sample is
    never pulled. *)
Lemma sink_failure_stops_loop :
  fst (main_loop demo_butter muse_config [failing_env; next_env] muse_start)
  = Raise OSError
  ∧ main_loop demo_butter muse_config [failing_env; next_env] muse_start
    = tick demo_butter muse_config failing_env muse_start
  ∧ fst (script demo_butter muse_config true 0%Qc [failing_env; next_env]
           (empty_state []))
    = Raise OSError
  ∧ (arr ← raw_window
             (snd (main_loop demo_butter muse_config [failing_env; next_env]
                     muse_start))
             "Channel 1"; getitem arr (-1)) = Some (fin 1).
Proof.
  assert (fst (tick demo_butter muse_config failing_env muse_start)
          = Raise OSError) as Ht by by_eval.
  split_and!.
  - by_eval.
  - rewrite main_loop_cons.
    by destruct (tick demo_butter muse_config _ muse_start) as [[[]|e] s1].
  - by_eval.
  - by_eval.
Qed.

Lemma sink_failure_propagates_witness :
  main_loop demo_butter muse_config [failing_env; next_env] muse_start
  = (Raise OSError,
     snd (process_sample demo_butter muse_config (pulled failing_env)
            muse_start)).
Proof.
  refine (proj1 (proj2 (proj2 (proj2 (sink_failure_propagates demo_butter
    muse_config failing_env [next_env] (ret tt) muse_start
    (fin <$> [1; 2; 3; 4]) (fin 100)
    (snd (process_sample demo_butter muse_config (pulled failing_env)
            muse_start))
    _ _ _))))).
  - apply pair_of_fst. vm_compute. reflexivity.
  - by_eval.
  - reflexivity.
Defined.

(** ** The CSV rows *)




Section Rows.
Context (cfg : Config).





End Rows.




(** ** The loop pushes with [window_push] *)

(** Lines 79-80 do to the raw window of [channel] what [window_push] does to
    an array. *)
Lemma raw_push_is_window_push sample i ch s arr x arr' :
  raw_window s ch = Some arr → getitem sample i = Some x →
  window_push arr x = Some arr' →
  ∃ s', (raw_roll ch;; raw_assign sample i ch) s = (Ok tt, s')
        ∧ raw_window s' ch = Some arr'.
Proof.
  unfold raw_window. intros Hw Hx Hpush.
  destruct (raw_buffers s !! ch) as [a|] eqn:Ha; [cbn in Hw|done].
  unfold mbind, M_bind, bind. rewrite raw_roll_eq, Ha, Hw.
  rewrite raw_assign_eq, Hx. cbn [raw_buffers set_raw_buffers].
  rewrite lookup_insert_eq, array_setitem_eq.
  cbn [heap set_raw_buffers set_heap]. rewrite list_lookup_middle by done.
  unfold window_push in Hpush. rewrite Hpush. eexists. split; [done|].
  cbn. rewrite lookup_insert_eq. cbn.
  apply list_lookup_insert_eq. rewrite length_app. cbn. lia.
Qed.

(** Lines 90-91 do the same to the filtered window of [band] and
    [channel]. *)
Lemma filt_push_is_window_push band ch v s arr arr' :
  filtered_window s band ch = Some arr → window_push arr v = Some arr' →
  ∃ s', (filt_roll band ch;; filt_assign band ch v) s = (Ok tt, s')
        ∧ filtered_window s' band ch = Some arr'.
Proof.
  unfold filtered_window. intros Hw Hpush.
  destruct (filtered_buffers s !! band) as [d|] eqn:Hd; [cbn in Hw|done].
  destruct (d !! ch) as [a|] eqn:Ha; [cbn in Hw|done].
  unfold mbind, M_bind, bind. rewrite filt_roll_eq, Hd, Ha, Hw.
  rewrite filt_assign_eq. cbn [filtered_buffers set_filtered_buffers].
  rewrite !lookup_insert_eq, array_setitem_eq.
  cbn [heap set_filtered_buffers set_heap]. rewrite list_lookup_middle by done.
  unfold window_push in Hpush. rewrite Hpush. eexists. split; [done|].
  cbn. rewrite lookup_insert_eq. cbn. rewrite lookup_insert_eq. cbn.
  apply list_lookup_insert_eq. rewrite length_app. cbn. lia.
Qed.
